(** * A shallow embedding of the OCI artifact harvester of qe-tools (package oci)

    Modelled Go code (package oci):
    - FetchTags, buildTagsURL, sendTagsRequest (module TagFetcher);
    - ProcessTag, createOutputDirectory, processBlobs (module Puller);
    - processBlob, isTarGzBlob, extractBlob, extractTarGz, handleTarEntry,
      createFileFromTar of blob_handler.go (module Blobs);
    - ProcessRepositories, processRepository (module Processor);
    - processExtractedFiles, isRequiredFile, initArtifactsFilesPathMap of
      artifact_scanner.go (module Scanner).

    Library code the package calls (net/http, encoding/json, time.Parse,
    oras.Copy, compress/gzip + archive/tar decoding, regexp) is taken as
    section variables: the theorems hold for every behaviour of it. *)

From Stdlib Require Import ZArith List String Ascii Bool Lia Permutation.
From stdpp Require Import base gmap strings list.

Import ListNotations.
Local Open Scope Z_scope.

Local Notation "a +++ b" := (String.append a b) (right associativity, at level 60).

(* ------------------------------------------------------------------ *)
(** ** Go values shared by all files *)

(** Go's [error]: a library error (opaque text) or an error built with
    [fmt.Errorf("<prefix>: %w", inner)] / [fmt.Errorf("<text>")]. *)
Inductive GoError :=
| ErrLib (msg : string)
| ErrWrap (prefix : string) (inner : GoError)
| ErrNew (msg : string).

(** A Go [(T, error)] pair where exactly one side is meaningful. *)
Inductive result (A : Type) :=
| Ok (a : A)
| Err (e : GoError).
Arguments Ok {A} a.
Arguments Err {A} e.

(** [strconv]/[fmt] decimal rendering of a non-negative integer. *)
Fixpoint digits_aux (fuel : nat) (n : nat) (acc : string) : string :=
  match fuel with
  | O => acc
  | S f =>
      let acc' := String (ascii_of_nat (48 + Nat.modulo n 10)) acc in
      if Nat.ltb n 10 then acc' else digits_aux f (Nat.div n 10) acc'
  end.

Definition string_of_nat (n : nat) : string := digits_aux (S n) n EmptyString.

(** [strings.HasSuffix]. *)
Definition HasSuffix (s suffix : string) : bool :=
  let n := String.length s in
  let k := String.length suffix in
  Nat.leb k n && String.eqb (String.substring (n - k) k s) suffix.

(* ------------------------------------------------------------------ *)
(** ** TagFetcher *)

Module TagFetcher.

(** [type TagInfo struct { Name; LastModified; Size int64 }] *)
Record TagInfo := mkTagInfo {
  Name : string;
  LastModified : string;
  Size : Z
}.

(** [type TagResponse struct { Tags []TagInfo }] *)
Record TagResponse := mkTagResponse { Tags : list TagInfo }.

Definition quayAPITagsURL : string := "https://quay.io/api/v1/repository/".
Definition perPageTags : nat := 100.

(** [fmt.Sprintf("%s%s/tag/?limit=%d&page=%d", quayAPITagsURL, repo, perPageTags, page)] *)
Definition buildTagsURL (repo : string) (page : nat) : string :=
  quayAPITagsURL +++ repo +++ "/tag/?limit=" +++ string_of_nat perPageTags
    +++ "&page=" +++ string_of_nat page.

(** What [url.Parse] yields that the code inspects. *)
Record URL := mkURL { URL_Scheme : string; URL_String : string }.

(** An HTTP response; [Body] is the outcome of
    [json.NewDecoder(resp.Body).Decode(&response)]. *)
Record Response := mkResponse {
  StatusCode : Z;
  Status : string;
  Body : result TagResponse
}.

Section Fetch.

(** [url.Parse] and [http.Get] (network failures included). *)
Variable url_Parse : string -> result URL.
Variable http_Get : string -> result Response.

Definition sendTagsRequest (urlStr : string) : result TagResponse :=
  match url_Parse urlStr with
  | Err e => Err (ErrWrap ("invalid URL " +++ urlStr) e)
  | Ok parsedURL =>
      if negb (String.eqb (URL_Scheme parsedURL) "http")
         && negb (String.eqb (URL_Scheme parsedURL) "https")
      then Err (ErrNew ("unsupported URL scheme " +++ URL_Scheme parsedURL
                          +++ " in URL " +++ urlStr))
      else
        match http_Get (URL_String parsedURL) with
        | Err e => Err (ErrWrap ("failed to fetch tags from URL " +++ urlStr) e)
        | Ok resp =>
            if negb (Z.eqb (StatusCode resp) 200)
            then Err (ErrNew ("failed to fetch tags: " +++ Status resp))
            else
              match Body resp with
              | Err e => Err (ErrWrap "failed to decode tags response" e)
              | Ok response => Ok response
              end
        end
  end.

(** The [for { ... }] loop of FetchTags.  The Go loop is unbounded; [fuel]
    bounds the number of pages requested, and [None] means the loop has
    not finished within [fuel] requests. *)
Fixpoint fetchPages (fuel : nat) (repo : string) (page : nat) (tags : list TagInfo)
  : option (result (list TagInfo)) :=
  match fuel with
  | O => None
  | S fuel' =>
      match sendTagsRequest (buildTagsURL repo page) with
      | Err e => Some (Err e)
      | Ok response =>
          if Nat.eqb (length (Tags response)) 0 then Some (Ok tags)
          else fetchPages fuel' repo (S page) (tags ++ Tags response)
      end
  end.

(** [func (c *Controller) FetchTags(repo string) ([]TagInfo, error)]:
    [var tags []TagInfo; page := 1; for { ... }]. *)
Definition FetchTags (fuel : nat) (repo : string) : option (result (list TagInfo)) :=
  fetchPages fuel repo 1 [].

End Fetch.

End TagFetcher.

(* ------------------------------------------------------------------ *)
(** ** Go's [time] package, as far as the code uses it *)

Module GoTime.

(** A [time.Time]: the instant, in nanoseconds since
    0001-01-01T00:00:00Z (Go's internal origin), and the offset in seconds
    of its location, used by [Format]. *)
Record Time := mkTime { t_abs : Z; t_offset : Z }.

(** [time.Time{}]: the zero time, January 1, year 1, 00:00:00 UTC. *)
Definition zeroTime : Time := mkTime 0 0.

Definition Second : Z := 1000000000.
Definition Minute : Z := 60 * Second.

(** [time.Duration] is an int64 count of nanoseconds. *)
Definition minDuration : Z := - 2 ^ 63.
Definition maxDuration : Z := 2 ^ 63 - 1.

(** [t.Sub(u)]: the difference, saturated to the Duration range. *)
Definition Sub (t u : Time) : Z :=
  let d := t_abs t - t_abs u in
  if maxDuration <? d then maxDuration
  else if d <? minDuration then minDuration
  else d.

(** [time.Since(t)] = [time.Now().Sub(t)], with [now] the clock reading. *)
Definition Since (now t : Time) : Z := Sub now t.

(** [time.Parse(time.RFC1123, value)]: [layout_parse] is the layout
    parser; on failure Go returns the zero Time together with a
    [*time.ParseError]. *)
Definition Parse (layout_parse : string -> option Time) (value : string)
  : Time * option GoError :=
  match layout_parse value with
  | Some t => (t, None)
  | None => (zeroTime, Some (ErrLib ("parsing time " +++ value +++ " as RFC1123")))
  end.

(** Proleptic Gregorian (year, month, day) of a day count since
    0001-01-01 (days-from-civil inverted, counted from 0000-03-01). *)
Definition civil_from_days (days : Z) : Z * Z * Z :=
  let z := days + 306 in
  let era := z / 146097 in
  let doe := z - era * 146097 in
  let yoe := (doe - doe / 1460 + doe / 36524 - doe / 146096) / 365 in
  let doy := doe - (365 * yoe + yoe / 4 - yoe / 100) in
  let mp := (5 * doy + 2) / 153 in
  let day := doy - (153 * mp + 2) / 5 + 1 in
  let month := if mp <? 10 then mp + 3 else mp - 9 in
  let year := yoe + era * 400 + (if month <=? 2 then 1 else 0) in
  (year, month, day).

(** Go's [appendInt(b, x, width)]: sign, then digits zero-padded. *)
Definition appendInt (x : Z) (width : nat) : string :=
  let ds := string_of_nat (Z.to_nat (Z.abs x)) in
  let padded := String.append
                  (String.concat "" (repeat "0" (width - String.length ds)%nat)) ds in
  if x <? 0 then "-" +++ padded else padded.

(** [t.Format("2006-01-02")]. *)
Definition Format_2006_01_02 (t : Time) : string :=
  let days := (t_abs t / Second + t_offset t) / 86400 in
  let '(y, m, d) := civil_from_days days in
  appendInt y 4 +++ "-" +++ appendInt m 2 +++ "-" +++ appendInt d 2.

End GoTime.

(* ------------------------------------------------------------------ *)
(** ** [path/filepath] and a file system *)

Module Paths.

Fixpoint split_slash_aux (s : string) (cur : string) : list string :=
  match s with
  | EmptyString => [cur]
  | String c s' =>
      if Ascii.eqb c "/"%char then cur :: split_slash_aux s' EmptyString
      else split_slash_aux s' (cur +++ String c EmptyString)
  end.

(** [strings.Split(s, "/")]. *)
Definition split_slash (s : string) : list string := split_slash_aux s EmptyString.

(** The element loop of [filepath.Clean]: drop empty and "." elements,
    let ".." remove the previous element; a rooted path cannot go above
    the root, a relative one keeps its leading "..". [acc] is reversed. *)
Fixpoint clean_aux (rooted : bool) (acc : list string) (segs : list string) : list string :=
  match segs with
  | [] => rev acc
  | s :: r =>
      if String.eqb s "" || String.eqb s "." then clean_aux rooted acc r
      else if String.eqb s ".." then
        match acc with
        | x :: acc' => if String.eqb x ".." then clean_aux rooted (s :: acc) r
                       else clean_aux rooted acc' r
        | [] => if rooted then clean_aux rooted [] r else clean_aux rooted [s] r
        end
      else clean_aux rooted (s :: acc) r
  end.

Definition is_rooted (s : string) : bool :=
  match s with String c _ => Ascii.eqb c "/"%char | EmptyString => false end.

(** [filepath.Clean]. *)
Definition Clean (s : string) : string :=
  let rooted := is_rooted s in
  let body := String.concat "/" (clean_aux rooted [] (split_slash s)) in
  if rooted then "/" +++ body
  else if String.eqb body "" then "." else body.

(** [filepath.Join(elem...)]: the non-empty elements joined by "/" and
    cleaned; "" when all are empty. *)
Definition Join (elems : list string) : string :=
  let ne := filter (fun e => negb (String.eqb e "")) elems in
  match ne with
  | [] => EmptyString
  | _ => Clean (String.concat "/" ne)
  end.

(** A file-system path as the list of its cleaned elements, from the
    root (relative paths are taken from the working directory, which is
    the root of the model). *)
Abbreviation path := (list string).

Definition segs (s : string) : path := clean_aux true [] (split_slash s).

(** [filepath.Join(dest, name)] on element lists. *)
Definition join_segs (dest : path) (name : string) : path :=
  clean_aux true [] (dest ++ split_slash name).

End Paths.

Module FS.
Import Paths.

Inductive Node := Dir | File (content : list Byte.byte).

(** The file system: every existing path with its node; the root [[]] is
    a directory. *)
Abbreviation FS := (gmap (list string) Node).

Definition lookup_node (fs : FS) (p : path) : option Node :=
  match p with [] => Some Dir | _ => fs !! p end.

(** [os.Stat(p)] succeeds. *)
Definition Stat (fs : FS) (p : path) : bool :=
  match lookup_node fs p with Some _ => true | None => false end.

Fixpoint mkdirAll_from (done : path) (rest : path) (fs : FS) : FS * option GoError :=
  match rest with
  | [] => (fs, None)
  | s :: rest' =>
      let p := done ++ [s] in
      match fs !! p with
      | Some Dir => mkdirAll_from p rest' fs
      | Some (File _) => (fs, Some (ErrLib "mkdir: not a directory"))
      | None => mkdirAll_from p rest' (<[p := Dir]> fs)
      end
  end.

(** [os.MkdirAll(p, perm)]: create every missing element, fail on the
    first one that exists as a regular file. *)
Definition MkdirAll (p : path) (fs : FS) : FS * option GoError := mkdirAll_from [] p fs.

(** [os.Create(p)] followed by writing [data] (truncating open): the
    parent must be a directory and [p] must not be one. *)
Definition CreateWrite (p : path) (data : list Byte.byte) (fs : FS) : FS * option GoError :=
  match lookup_node fs (removelast p), lookup_node fs p with
  | Some Dir, Some Dir => (fs, Some (ErrLib "open: is a directory"))
  | Some Dir, _ => (<[p := File data]> fs, None)
  | Some (File _), _ => (fs, Some (ErrLib "open: not a directory"))
  | None, _ => (fs, Some (ErrLib "open: no such file or directory"))
  end.

End FS.

(* ------------------------------------------------------------------ *)
(** ** BlobExtractor (blob_handler.go) *)

Module Blobs.
Import Paths FS.

(** [tar.Header.Typeflag]: the two kinds the code handles, and the rest. *)
Inductive TypeFlag := TypeReg | TypeDir | TypeOther (flag : ascii).

Record Header := mkHeader { hName : string; Typeflag : TypeFlag }.

(** One step of [tarReader.Next()]: an entry with the bytes of its body
    that can be read and the read error after them, if any; or a header
    read error.  The end of the list is [io.EOF]. *)
Inductive TarItem :=
| TEntry (h : Header) (data : list Byte.byte) (data_err : option GoError)
| TError (e : GoError).

(** What [gzip.NewReader] and [tar.NewReader] make of a blob's bytes. *)
Inductive TarStream :=
| GzipError (e : GoError)
| Entries (items : list TarItem).

Definition path_string (p : path) : string := "/" +++ String.concat "/" p.

(** [createFileFromTar]: [os.Create] then [io.Copy] of the entry body. *)
Definition createFileFromTar (data : list Byte.byte) (data_err : option GoError)
    (destPath : path) (fs : FS) : FS * option GoError :=
  match CreateWrite destPath data fs with
  | (fs', Some e) =>
      (fs', Some (ErrWrap ("failed to create file " +++ path_string destPath) e))
  | (fs', None) =>
      match data_err with
      | Some e => (fs', Some (ErrWrap ("failed to write file " +++ path_string destPath) e))
      | None => (fs', None)
      end
  end.

(** [handleTarEntry]. *)
Definition handleTarEntry (h : Header) (data : list Byte.byte) (data_err : option GoError)
    (destPath : path) (fs : FS) : FS * option GoError :=
  match Typeflag h with
  | TypeDir => MkdirAll destPath fs
  | TypeReg =>
      if Stat fs destPath then (fs, None)
      else createFileFromTar data data_err destPath fs
  | TypeOther c => (fs, Some (ErrNew ("unsupported tar entry: " +++ String c EmptyString)))
  end.

(** The entry loop of [extractTarGz]. *)
Fixpoint extractEntries (items : list TarItem) (dest : path) (fs : FS) : FS * option GoError :=
  match items with
  | [] => (fs, None)
  | TError e :: _ => (fs, Some (ErrWrap "failed to read tar header" e))
  | TEntry h data data_err :: rest =>
      let destPath := join_segs dest (hName h) in
      match handleTarEntry h data data_err destPath fs with
      | (fs', Some e) => (fs', Some e)
      | (fs', None) => extractEntries rest dest fs'
      end
  end.

(** [extractTarGz(gzipStream, dest)]. *)
Definition extractTarGz (stream : TarStream) (dest : path) (fs : FS) : FS * option GoError :=
  match stream with
  | GzipError e => (fs, Some (ErrWrap "failed to create gzip reader" e))
  | Entries items => extractEntries items dest fs
  end.

Definition extractTimeout : Z := 1 * GoTime.Minute.

(** [isTarGzBlob]: a 2-byte zeroed buffer filled by [file.Read] (which
    fails with [io.EOF] on an empty file), then the suffix or magic test. *)
Definition isTarGzBlob (blobPath : string) (content : list Byte.byte) : bool :=
  match content with
  | [] => false
  | b0 :: rest =>
      let b1 := match rest with b1 :: _ => b1 | [] => Byte.x00 end in
      HasSuffix blobPath ".tar.gz" || (Byte.eqb b0 Byte.x1f && Byte.eqb b1 Byte.x8b)
  end.

Section Extract.

(** The gzip + tar decoding of a blob, and the time the extraction
    goroutine needs for it (nanoseconds). *)
Variable gunzip_untar : list Byte.byte -> TarStream.
Variable extract_time : list Byte.byte -> Z.

(** [extractBlob]: the extraction runs in a goroutine raced against a
    1-minute context.  Results are the file system, the error and the
    time spent waiting.  When the timer wins, the abandoned goroutine's
    writes are taken as completed. *)
Definition extractBlob (blobPath : string) (content : list Byte.byte) (outputDir : path)
    (fs : FS) : FS * option GoError * Z :=
  let '(fs', r) := extractTarGz (gunzip_untar content) outputDir fs in
  if extractTimeout <? extract_time content
  then (fs', Some (ErrNew ("timeout while extracting blob " +++ blobPath)), extractTimeout)
  else (fs', match r with
             | Some e => Some (ErrWrap ("failed to extract tar.gz blob " +++ blobPath) e)
             | None => None
             end, extract_time content).

(** [processBlob(blobPath, outputDir)] for a file of the blob directory
    with bytes [content]. *)
Definition processBlob (blobPath : string) (content : list Byte.byte) (outputDir : path)
    (fs : FS) : FS * option GoError * Z :=
  let cleanBlobPath := Clean blobPath in
  if Nat.eqb (length content) 0
  then (fs, Some (ErrNew ("blob " +++ cleanBlobPath +++ " is empty, skipping")), 0)
  else if isTarGzBlob cleanBlobPath content
  then extractBlob cleanBlobPath content outputDir fs
  else (fs, None, 0).

End Extract.

End Blobs.

(* ------------------------------------------------------------------ *)
(** ** ArtifactPuller: ProcessTag and processBlobs *)

Module Puller.
Import Paths FS Blobs.

(** A call that returns, or one that blocks forever. *)
Inductive outcome (A : Type) := Returns (a : A) | Hangs.
Arguments Returns {A} a.
Arguments Hangs {A}.

(** An entry of [os.ReadDir(c.BlobDir)], with the bytes of the file. *)
Record DirEntry := mkDirEntry { de_name : string; de_isDir : bool; de_content : list Byte.byte }.

(** The part of [type Controller struct] ProcessTag reads. *)
Record Controller := mkController { OutputDir : string; BlobDir : string }.

(** What ProcessTag acts on: the clock (ns), the file system holding the
    output tree, the blob directory ([None]: [os.ReadDir] fails) and the
    lines written with [log.Println("Error:", err)]. *)
Record World := mkWorld {
  w_clock : Z;
  w_fs : FS;
  w_blobdir : option (list DirEntry);
  w_log : list GoError
}.

Definition blobTimeout : Z := 2 * GoTime.Minute.

Definition set_fs (w : World) (fs : FS) : World :=
  mkWorld (w_clock w) fs (w_blobdir w) (w_log w).

Definition zmin (l : list Z) : Z := fold_right Z.min (hd 0 l) l.
Definition zmax (l : list Z) : Z := fold_right Z.max (hd 0 l) l.

Fixpoint bump (m d : Z) (l : list Z) : list Z :=
  match l with
  | [] => []
  | x :: r => if Z.eqb x m then (x + d) :: r else x :: bump m d r
  end.

(** Wall-clock time of goroutines of the given durations behind a
    semaphore of [n] slots, each goroutine taking the first free slot in
    directory order. *)
Definition makespan (n : nat) (durs : list Z) : Z :=
  zmax (fold_left (fun slots d => bump (zmin slots) d slots) durs (repeat 0 n)).

Section Pull.

Variable gunzip_untar : list Byte.byte -> TarStream.
Variable extract_time : list Byte.byte -> Z.
(** The RFC1123 layout parser behind [time.Parse]. *)
Variable layout_parse : string -> option GoTime.Time.
(** [setupRemoteRepository(repo)]: [remote.NewRepository("quay.io/" + repo)]
    and the docker credential store; its (already wrapped) error. *)
Variable setupRemoteRepository : string -> option GoError.
(** [oras.Copy(ctx, repoRemote, tag, store, tag, ...)] under a context
    whose deadline is the given clock value. *)
Variable oras_Copy : Z -> string -> string -> World -> World * option GoError.

(** [copyTagManifest]. *)
Definition copyTagManifest (deadline : Z) (repo tag : string) (w : World)
  : World * option GoError :=
  match oras_Copy deadline repo tag w with
  | (w', Some e) => (w', Some (ErrWrap ("failed to copy manifest for tag " +++ tag) e))
  | (w', None) => (w', None)
  end.

(** [createOutputDirectory]: [parsedDate, _ := time.Parse(time.RFC1123, creationDate)]. *)
Definition createOutputDirectory (c : Controller) (repo creationDate tag : string) : string :=
  let '(parsedDate, _) := GoTime.Parse layout_parse creationDate in
  Join [OutputDir c; repo; GoTime.Format_2006_01_02 parsedDate; tag].

(** The [for _, entry := range entries] loop of processBlobs, the
    HandleBlob goroutines taken one after the other: file system, errors
    sent on the channel, and the time each goroutine ran. *)
Fixpoint handleBlobs (c : Controller) (outputDir : path) (entries : list DirEntry) (fs : FS)
  : FS * list GoError * list Z :=
  match entries with
  | [] => (fs, [], [])
  | e :: rest =>
      if de_isDir e then handleBlobs c outputDir rest fs
      else
        let '(fs1, r, d) := processBlob gunzip_untar extract_time
                              (Join [BlobDir c; de_name e]) (de_content e) outputDir fs in
        let '(fs2, errs, ds) := handleBlobs c outputDir rest fs1 in
        (fs2, match r with Some err => err :: errs | None => errs end, d :: ds)
  end.

(** [processBlobs(outputDir)]: errors go to a channel of capacity 10
    that is drained only after [wg.Wait()]; an 11th error blocks its
    goroutine, so [wg.Wait()] never returns.  Otherwise errors are only
    logged and the result is [nil]. *)
Definition processBlobs (c : Controller) (outputDir : string) (w : World)
  : outcome (World * option GoError) :=
  match w_blobdir w with
  | None => Returns (w, Some (ErrWrap "failed to read blob directory" (ErrLib "readdir")))
  | Some entries =>
      let '(fs', errs, durs) := handleBlobs c (segs outputDir) entries (w_fs w) in
      if Nat.ltb 10 (length errs) then Hangs
      else Returns (mkWorld (w_clock w + makespan 10 durs) fs' (w_blobdir w) (w_log w ++ errs),
                    None)
  end.

(** [func (c *Controller) ProcessTag(repo, tag, creationDate string) error]:
    [ctx, cancel := context.WithTimeout(context.Background(), blobTimeout)]. *)
Definition ProcessTag (c : Controller) (repo tag creationDate : string) (w : World)
  : outcome (World * option GoError) :=
  let deadline := w_clock w + blobTimeout in
  match setupRemoteRepository repo with
  | Some e => Returns (w, Some e)
  | None =>
      match copyTagManifest deadline repo tag w with
      | (w1, Some e) => Returns (w1, Some e)
      | (w1, None) =>
          let outputDir := createOutputDirectory c repo creationDate tag in
          match MkdirAll (segs outputDir) (w_fs w1) with
          | (fs2, Some e) =>
              Returns (set_fs w1 fs2,
                       Some (ErrWrap ("failed to create output directory " +++ outputDir) e))
          | (fs2, None) => processBlobs c outputDir (set_fs w1 fs2)
          end
      end
  end.

End Pull.

End Puller.

(* ------------------------------------------------------------------ *)
(** ** RepositoryProcessor: ProcessRepositories and processRepository *)

Module Processor.
Import TagFetcher.

(** [log.Printf("failed to process tag %s in repository. ... %s: %s", tag, repo, err)]. *)
Inductive LogLine := TagFailure (tag repo : string) (err : GoError).

Section Proc.

(** Whatever ProcessTag acts on, and ProcessTag itself (module Puller),
    taken here as any returning function of that state. *)
Variable World : Type.
Variable ProcessTag : string -> string -> string -> World -> World * option GoError.
(** What [c.FetchTags(repo)] returns (module TagFetcher). *)
Variable FetchTags : string -> result (list TagInfo).
(** The RFC1123 layout parser behind [time.Parse]. *)
Variable layout_parse : string -> option GoTime.Time.

(** The processor's state: the world, the log, and the sequence of
    ProcessTag invocations [(repo, tag, creationDate)] (observation). *)
Record PState := mkPState {
  ps_world : World;
  ps_log : list LogLine;
  ps_calls : list (string * string * string)
}.

(** The pull step for one retained tag; a failure is only logged. *)
Definition pull (repo : string) (ti : TagInfo) (st : PState) : PState :=
  let '(w', r) := ProcessTag repo (Name ti) (LastModified ti) (ps_world st) in
  mkPState w'
    (ps_log st ++ match r with
                  | Some e => [TagFailure (Name ti) repo e]
                  | None => []
                  end)
    (ps_calls st ++ [(repo, Name ti, LastModified ti)]).

(** The [for _, tagInfo := range tags] loop; [now i] is the clock
    reading [time.Since] takes when the [i]-th tag is examined. *)
Fixpoint processTags (repo : string) (since : Z) (now : nat -> GoTime.Time) (i : nat)
    (tags : list TagInfo) (st : PState) : PState * option GoError :=
  match tags with
  | [] => (st, None)
  | tagInfo :: rest =>
      let '(parsedDate, err) := GoTime.Parse layout_parse (LastModified tagInfo) in
      match err with
      | Some e =>
          (st, Some (ErrWrap ("failed to parse creation date " +++ LastModified tagInfo) e))
      | None =>
          let st' := if (GoTime.Since (now i) parsedDate <? since) && (2 <? Size tagInfo)
                     then pull repo tagInfo st else st in
          processTags repo since now (S i) rest st'
      end
  end.

(** [func (c *Controller) processRepository(repo string, since time.Duration) error]. *)
Definition processRepository (repo : string) (since : Z) (now : nat -> GoTime.Time)
    (st : PState) : PState * option GoError :=
  match FetchTags repo with
  | Err e => (st, Some (ErrWrap ("failed to fetch tags for repository " +++ repo) e))
  | Ok tags => processTags repo since now 0 tags st
  end.

(** [func (c *Controller) ProcessRepositories(repositories []string, since) []error].
    One goroutine per repository; [sched] is the order in which they run
    (a permutation of [repositories]), each one's effects taken as a
    whole.  The channel has capacity [len(repositories)], so no send
    blocks; it is drained after [wg.Wait()] in send order. *)
Fixpoint ProcessRepositories (sched : list string) (since : Z)
    (now : string -> nat -> GoTime.Time) (st : PState) : PState * list GoError :=
  match sched with
  | [] => (st, [])
  | repo :: rest =>
      let '(st1, r) := processRepository repo since (now repo) st in
      let '(st2, errs) := ProcessRepositories rest since now st1 in
      (st2, match r with
            | Some e => ErrWrap ("repository " +++ repo) e :: errs
            | None => errs
            end)
  end.

End Proc.

Arguments mkPState {World} ps_world ps_log ps_calls.
Arguments ps_world {World} p.
Arguments ps_log {World} p.
Arguments ps_calls {World} p.

End Processor.

(* ------------------------------------------------------------------ *)
(** ** ArtifactScanner (artifact_scanner.go) *)

Module Scanner.

(** [type Artifact struct { Content string; Filename string }]. *)
Record Artifact := mkArtifact { Content : string; Filename : string }.

Local Set Warnings "-register-all".

(** The extracted tree; a directory lists its entries in the (lexical)
    order [filepath.Walk] visits them. *)
Inductive Tree :=
| TFile (name : string) (content : string)
| TDir (name : string) (children : list Tree).

Definition tree_name (t : Tree) : string :=
  match t with TFile n _ => n | TDir n _ => n end.

Section Scan.

(** [regexp.MustCompile(pattern).MatchString(s)]. *)
Variable MatchString : string -> string -> bool.
(** [as.config.FileNameFilter]. *)
Variable FileNameFilter : list string.

(** [isRequiredFile]: [slices.ContainsFunc] over the filters. *)
Definition isRequiredFile (filePath : string) : bool :=
  existsb (fun s => MatchString s filePath) FileNameFilter.

(** [initArtifactsFilesPathMap(fileName, filePath)]: [os.Open] and
    [io.ReadAll]; reading a directory fails with EISDIR. *)
Definition initArtifactsFilesPathMap (fileName filePath : string) (node : Tree)
    (m : gmap string Artifact) : gmap string Artifact * option GoError :=
  match node with
  | TDir _ _ => (m, Some (ErrLib ("read " +++ filePath +++ ": is a directory")))
  | TFile _ content => (<[filePath := mkArtifact content fileName]> m, None)
  end.

(** The [filepath.Walk] callback of processExtractedFiles. *)
Definition visit (filePath : string) (node : Tree) (m : gmap string Artifact)
  : gmap string Artifact * option GoError :=
  if isRequiredFile filePath
  then initArtifactsFilesPathMap (tree_name node) filePath node m
  else (m, None).

(** [filepath.Walk]: the callback on a path, then on each entry of a
    directory; the first error stops the walk. *)
Fixpoint walk (filePath : string) (t : Tree) (m : gmap string Artifact) {struct t}
  : gmap string Artifact * option GoError :=
  match t with
  | TFile _ _ => visit filePath t m
  | TDir _ children =>
      match visit filePath t m with
      | (m', Some e) => (m', Some e)
      | (m', None) =>
          (fix walk_children (cs : list Tree) (m0 : gmap string Artifact)
             : gmap string Artifact * option GoError :=
             match cs with
             | [] => (m0, None)
             | c :: rest =>
                 match walk (Paths.Join [filePath; tree_name c]) c m0 with
                 | (m1, Some e) => (m1, Some e)
                 | (m1, None) => walk_children rest m1
                 end
             end) children m'
      end
  end.

(** [processExtractedFiles]: walk [as.artifactDirPath] (whose tree is
    [root]) into [as.FilesPathMap]. *)
Definition processExtractedFiles (artifactDirPath : string) (root : Tree)
    (m : gmap string Artifact) : gmap string Artifact * option GoError :=
  walk artifactDirPath root m.

End Scan.

End Scanner.

(* ------------------------------------------------------------------ *)
(** ** A fragment of Go's [regexp] (RE2 syntax, unanchored [MatchString])

    Literals, escaped punctuation, [.], [^], [$] and the greedy postfix
    operators [*], [+], [?]; a pattern outside this fragment is rejected
    ([None]).  It instantiates [Scanner.MatchString] on concrete inputs. *)

Module Regexp.

Inductive Atom := AChar (c : ascii) | AAny | ABol | AEol.
Inductive Piece := One (a : Atom) | Star (a : Atom) | Plus (a : Atom) | Opt (a : Atom).

Definition is_alnum (c : ascii) : bool :=
  let n := nat_of_ascii c in
  (Nat.leb 48 n && Nat.leb n 57) || (Nat.leb 65 n && Nat.leb n 90)
  || (Nat.leb 97 n && Nat.leb n 122).

Definition special (c : ascii) : bool :=
  existsb (Ascii.eqb c) ["("; ")"; "["; "]"; "{"; "}"; "|"; "*"; "+"; "?"]%char.

Definition quantify (a : Atom) (rest : list ascii) : option (Piece * list ascii) :=
  match rest with
  | "*"%char :: r => Some (Star a, r)
  | "+"%char :: r => Some (Plus a, r)
  | "?"%char :: r => Some (Opt a, r)
  | _ => Some (One a, rest)
  end.

Fixpoint parse_pieces (fuel : nat) (s : list ascii) : option (list Piece) :=
  match fuel with
  | O => None
  | S f =>
      match s with
      | [] => Some []
      | c :: r =>
          let atom_rest :=
            if Ascii.eqb c "\"%char then
              match r with
              | d :: r' => if is_alnum d then None else Some (AChar d, r')
              | [] => None
              end
            else if Ascii.eqb c "."%char then Some (AAny, r)
            else if Ascii.eqb c "^"%char then Some (ABol, r)
            else if Ascii.eqb c "$"%char then Some (AEol, r)
            else if special c then None
            else Some (AChar c, r) in
          match atom_rest with
          | None => None
          | Some (a, r1) =>
              match a with
              | ABol | AEol =>
                  match parse_pieces f r1 with
                  | Some ps => Some (One a :: ps)
                  | None => None
                  end
              | _ =>
                  match quantify a r1 with
                  | Some (p, r2) =>
                      match r2 with
                      | "?"%char :: _ => None
                      | _ => match parse_pieces f r2 with
                             | Some ps => Some (p :: ps)
                             | None => None
                             end
                      end
                  | None => None
                  end
              end
          end
      end
  end.

Definition compile (pattern : string) : option (list Piece) :=
  let s := list_ascii_of_string pattern in parse_pieces (S (length s)) s.

(** [.] matches any character but newline. *)
Definition atom_ok (a : Atom) (c : ascii) : bool :=
  match a with
  | AChar d => Ascii.eqb c d
  | AAny => negb (Ascii.eqb c "010"%char)
  | _ => false
  end.

(** Does the pattern match a prefix of [s]? [atstart]: [s] is the whole
    input, for [^]; [$] is the end of the text. *)
Fixpoint match_here (ps : list Piece) (atstart : bool) (s : list ascii) {struct ps} : bool :=
  match ps with
  | [] => true
  | One ABol :: r => atstart && match_here r atstart s
  | One AEol :: r => match s with [] => match_here r atstart s | _ => false end
  | One a :: r =>
      match s with
      | c :: s' => atom_ok a c && match_here r false s'
      | [] => false
      end
  | Star a :: r =>
      (fix star (s : list ascii) (st : bool) : bool :=
         match_here r st s
         || match s with c :: s' => atom_ok a c && star s' false | [] => false end) s atstart
  | Plus a :: r =>
      match s with
      | c :: s' =>
          atom_ok a c &&
          (fix star (s : list ascii) (st : bool) : bool :=
             match_here r st s
             || match s with c :: s' => atom_ok a c && star s' false | [] => false end) s' false
      | [] => false
      end
  | Opt a :: r =>
      match_here r atstart s
      || match s with c :: s' => atom_ok a c && match_here r false s' | [] => false end
  end.

(** Unanchored search: a match starting at some position. *)
Fixpoint search (ps : list Piece) (atstart : bool) (s : list ascii) : bool :=
  match_here ps atstart s || match s with [] => false | _ :: s' => search ps false s' end.

Definition MatchString (pattern s : string) : bool :=
  match compile pattern with
  | Some ps => search ps true (list_ascii_of_string s)
  | None => false
  end.

End Regexp.

(* ------------------------------------------------------------------ *)
(** ** What the processor is specified to do, per repository *)

Module ProcessorSpec.
Import TagFetcher.

Section Spec.

Variable FetchTags : string -> result (list TagInfo).
Variable layout_parse : string -> option GoTime.Time.

(** The pulls made for [tags] when the [i]-th one is examined at [now i]:
    each tag with an RFC1123 date, [now - date < since] and [size > 2],
    up to the first tag whose date does not parse. *)
Fixpoint retainedCalls (repo : string) (since : Z) (now : nat -> GoTime.Time) (i : nat)
    (tags : list TagInfo) : list (string * string * string) :=
  match tags with
  | [] => []
  | ti :: rest =>
      match layout_parse (LastModified ti) with
      | None => []
      | Some t =>
          (if (GoTime.Since (now i) t <? since) && (2 <? Size ti)
           then [(repo, Name ti, LastModified ti)] else [])
          ++ retainedCalls repo since now (S i) rest
      end
  end.

(** The error of the first tag whose date does not parse. *)
Fixpoint firstParseError (tags : list TagInfo) : option GoError :=
  match tags with
  | [] => None
  | ti :: rest =>
      match GoTime.Parse layout_parse (LastModified ti) with
      | (_, Some e) => Some (ErrWrap ("failed to parse creation date " +++ LastModified ti) e)
      | (_, None) => firstParseError rest
      end
  end.

(** The error a repository contributes: its fetch error or its first
    unparseable date; pull results play no part. *)
Definition repoError (repo : string) : option GoError :=
  match FetchTags repo with
  | Err e => Some (ErrWrap ("failed to fetch tags for repository " +++ repo) e)
  | Ok tags => firstParseError tags
  end.

Definition repoCalls (repo : string) (since : Z) (now : nat -> GoTime.Time)
  : list (string * string * string) :=
  match FetchTags repo with
  | Err _ => []
  | Ok tags => retainedCalls repo since now 0 tags
  end.

End Spec.

End ProcessorSpec.

(* ------------------------------------------------------------------ *)
(** ** Concrete inputs *)

Module Fixtures.
Import TagFetcher.

(** "Mon, 02 Jan 2006 15:04:05 UTC" is 2006-01-02T15:04:05Z. *)
Definition t2006 : GoTime.Time :=
  GoTime.mkTime ((732312 * 86400 + 15 * 3600 + 4 * 60 + 5) * GoTime.Second) 0.

Definition date2006 : string := "Mon, 02 Jan 2006 15:04:05 UTC".

(** An RFC1123 parser that knows one date and refuses everything else. *)
Definition parse_one (s : string) : option GoTime.Time :=
  if String.eqb s date2006 then Some t2006 else None.

Definition tag_v1 : TagInfo := mkTagInfo "v1" date2006 1024.
Definition tag_v2 : TagInfo := mkTagInfo "v2" date2006 2048.
Definition tag_bad : TagInfo := mkTagInfo "broken" "2006-01-02T15:04:05Z" 4096.

(** One hour after [t2006]; a one-day window. *)
Definition now_1h (_ : nat) : GoTime.Time :=
  GoTime.mkTime (GoTime.t_abs t2006 + 60 * GoTime.Minute) 0.
Definition day : Z := 24 * 60 * GoTime.Minute.

Definition mock_url_Parse (s : string) : result URL := Ok (mkURL "https" s).

(** A tag API with one page of one tag, then an empty page. *)
Definition mock_http_Get (u : string) : result Response :=
  if String.eqb u (buildTagsURL "org/repo" 1)
  then Ok (mkResponse 200 "200 OK" (Ok (mkTagResponse [tag_v1])))
  else Ok (mkResponse 200 "200 OK" (Ok (mkTagResponse []))).

(** ProcessTag doubles over a trivial world: one that succeeds and one
    that fails (the tag is gone from the registry). *)
Definition tag_ok (_ _ _ : string) (w : unit) : unit * option GoError := (w, None).
Definition tag_fail (_ _ _ : string) (w : unit) : unit * option GoError :=
  (w, Some (ErrNew "manifest unknown")).

Definition st0 : Processor.PState unit := Processor.mkPState tt [] [].

(** Three repositories; the tag listing of the second one fails. *)
Definition fetch_abc (repo : string) : result (list TagInfo) :=
  if String.eqb repo "org/b" then Err (ErrNew "connection reset") else Ok [tag_v1].

(** A blob store of one gzip blob (an empty archive) whose extraction
    takes 59 s, and a manifest copy that takes 100 s and honours its
    deadline. *)
Definition gz_blob : list Byte.byte := [Byte.x1f; Byte.x8b; Byte.x08; Byte.x00].
Definition untar_empty (_ : list Byte.byte) : Blobs.TarStream := Blobs.Entries [].
Definition time_59s (_ : list Byte.byte) : Z := 59 * GoTime.Second.
Definition setup_ok (_ : string) : option GoError := None.
Definition copy_100s (deadline : Z) (_ _ : string) (w : Puller.World)
  : Puller.World * option GoError :=
  if Puller.w_clock w + 100 * GoTime.Second <=? deadline
  then (Puller.mkWorld (Puller.w_clock w + 100 * GoTime.Second) (Puller.w_fs w)
          (Puller.w_blobdir w) (Puller.w_log w), None)
  else (w, Some (ErrLib "context deadline exceeded")).
Definition ctl : Puller.Controller := Puller.mkController "/out" "/oci/blobs/sha256/".
Definition w0 : Puller.World :=
  Puller.mkWorld 0 ∅ (Some [Puller.mkDirEntry "9f2c" false gz_blob]) [].

(** Extracted artifact trees under "/tmp/artifacts": one suite with a
    report and a note, and a directory of provisioning logs. *)
Definition report_tree : Scanner.Tree :=
  Scanner.TDir "artifacts"
    [Scanner.TDir "suite1" [Scanner.TFile "e2e-report.xml" "<ok/>";
                            Scanner.TFile "notes.txt" "all green"]].
Definition provision_tree : Scanner.Tree :=
  Scanner.TDir "artifacts"
    [Scanner.TDir "cluster-provision-logs"
       [Scanner.TFile "cluster-provision.log" "cluster ready"]].

(** The FileNameFilter default of the analyze-test-results command. *)
Definition default_filter : list string :=
  ["e2e-report.xml"; "cluster-provision.log"; "e2e-tests.log"].

End Fixtures.

(* ------------------------------------------------------------------ *)
(** ** [strings] helpers and ParseRepoAndTag (pkg/utils/utils.go) *)

Module Utils.

(** [strings.HasPrefix(s, prefix)]. *)
Definition HasPrefix (s prefix : string) : bool := String.prefix prefix s.

(** [strings.TrimPrefix(s, prefix)]. *)
Definition TrimPrefix (s prefix : string) : string :=
  if HasPrefix s prefix
  then String.substring (String.length prefix) (String.length s - String.length prefix) s
  else s.

(** [strings.TrimSuffix(s, suffix)]. *)
Definition TrimSuffix (s suffix : string) : string :=
  if HasSuffix s suffix
  then String.substring 0 (String.length s - String.length suffix) s
  else s.

(** The first [strings.Index(s, sep)] cut for a one-character [sep]. *)
Fixpoint cut_at (sep : ascii) (s : string) : option (string * string) :=
  match s with
  | EmptyString => None
  | String c r =>
      if Ascii.eqb c sep then Some (EmptyString, r)
      else match cut_at sep r with
           | Some (a, b) => Some (String c a, b)
           | None => None
           end
  end.

(** [strings.SplitN(s, sep, 2)] for a one-character [sep]: one cut at the
    first [sep], or [s] alone when there is none. *)
Definition SplitN2 (s : string) (sep : ascii) : list string :=
  match cut_at sep s with
  | Some (a, b) => [a; b]
  | None => [s]
  end.

(** [func ParseRepoAndTag(repoFlag string) (string, string, error)]. *)
Definition ParseRepoAndTag (repoFlag : string) : result (string * string) :=
  if negb (HasPrefix repoFlag "quay.io/")
  then Err (ErrNew "the repository must start with 'quay.io/'")
  else
    let rest := TrimPrefix repoFlag "quay.io/" in
    match SplitN2 rest ":"%char with
    | [repo; tag] => Ok (repo, tag)
    | _ => Err (ErrNew "tag is missing in the repo flag")
    end.

End Utils.

(* ------------------------------------------------------------------ *)
(** ** parseDuration of the download command *)

Module Download.

(** A [time.Duration] product: int64 arithmetic wraps around. *)
Definition wrap64 (x : Z) : Z := (x + 2 ^ 63) mod 2 ^ 64 - 2 ^ 63.

Section Dur.

(** [time.ParseDuration]: nanoseconds, or its error. *)
Variable ParseDuration : string -> result Z.

(** [func parseDuration(since string) (time.Duration, error)]:
    a trailing 'd' counts days, as [ParseDuration(days + "h") * 24]. *)
Definition parseDuration (since : string) : result Z :=
  let n := String.length since in
  if Nat.ltb 1 n
     && match String.get (n - 1) since with
        | Some c => Ascii.eqb c "d"%char
        | None => false
        end
  then
    let days := String.substring 0 (n - 1) since in
    match ParseDuration (days +++ "h") with
    | Err e => Err e
    | Ok hours => Ok (wrap64 (hours * 24))
    end
  else ParseDuration since.

End Dur.

End Download.

(* ------------------------------------------------------------------ *)
(** ** The order in which [filepath.Walk] visits an extracted tree *)

Module TreeWalk.
Import Scanner.

(** Every path visited, with its node, in visiting order: the path
    itself, then each entry of a directory at [filepath.Join(path, name)]. *)
Fixpoint tree_entries (p : string) (t : Tree) {struct t} : list (string * Tree) :=
  match t with
  | TFile _ _ => [(p, t)]
  | TDir _ children =>
      (p, t) :: (fix entries (cs : list Tree) : list (string * Tree) :=
                   match cs with
                   | [] => []
                   | c :: rest => tree_entries (Paths.Join [p; tree_name c]) c ++ entries rest
                   end) children
  end.

Definition is_dir (t : Tree) : bool := match t with TDir _ _ => true | TFile _ _ => false end.

Section W.

Variable MatchString : string -> string -> bool.
Variable FileNameFilter : list string.

(** The walk of processExtractedFiles over the visited paths in order:
    the callback on each, stopping at the first error. *)
Fixpoint walk_list (es : list (string * Tree)) (m : gmap string Artifact)
  : gmap string Artifact * option GoError :=
  match es with
  | [] => (m, None)
  | (q, n) :: rest =>
      match visit MatchString FileNameFilter q n m with
      | (m', Some e) => (m', Some e)
      | (m', None) => walk_list rest m'
      end
  end.

End W.

End TreeWalk.

(* ------------------------------------------------------------------ *)
(** ** GetGzFilesFromDir and ExtractGzFile (blob_handler.go) *)

Module GzFiles.
Import Paths FS Scanner.

(** [filepath.Base]: strip trailing separators, keep the last element;
    "." for "", "/" for a path of separators only. *)
Definition Base (p : string) : string :=
  match p with
  | EmptyString => "."
  | _ =>
      let l1 := (fix strip (l : list ascii) : list ascii :=
                   match l with
                   | c :: r => if Ascii.eqb c "/"%char then strip r else l
                   | [] => []
                   end) (rev (list_ascii_of_string p)) in
      let base := (fix upto (l : list ascii) : list ascii :=
                     match l with
                     | c :: r => if Ascii.eqb c "/"%char then [] else c :: upto r
                     | [] => []
                     end) l1 in
      match base with
      | [] => "/"
      | _ => string_of_list_ascii (rev base)
      end
  end.

(** [filepath.Dir] (named apart from the directory node [Dir]): [Clean]
    of everything up to the last separator. *)
Definition filepath_Dir (p : string) : string :=
  let rest := (fix drop (l : list ascii) : list ascii :=
                 match l with
                 | c :: r => if Ascii.eqb c "/"%char then l else drop r
                 | [] => []
                 end) (rev (list_ascii_of_string p)) in
  Clean (string_of_list_ascii (rev rest)).

(** [type GzFileInfo struct { FilePath; DirPath string }]. *)
Record GzFileInfo := mkGzFileInfo { FilePath : string; DirPath : string }.

(** [GetGzFilesFromDir(dir)]: [filepath.Walk] with a callback that keeps
    every non-directory whose [info.Name()] ends in ".gz".  The walk of
    an extracted tree meets no [Lstat] or [ReadDir] error, so the Go
    function returns the list with a nil error. *)
Fixpoint gzWalk (path : string) (t : Tree) (acc : list GzFileInfo) {struct t}
  : list GzFileInfo :=
  match t with
  | TFile name _ =>
      if HasSuffix name ".gz" then acc ++ [mkGzFileInfo path (filepath_Dir path)] else acc
  | TDir _ children =>
      (fix walk_children (cs : list Tree) (acc0 : list GzFileInfo) : list GzFileInfo :=
         match cs with
         | [] => acc0
         | c :: rest => walk_children rest (gzWalk (Join [path; tree_name c]) c acc0)
         end) children acc
  end.

Definition GetGzFilesFromDir (dir : string) (root : Tree) : list GzFileInfo :=
  gzWalk dir root [].

Section Gz.

(** [gzip.NewReader(gzFile)]: the header's [Name], the decompressed
    bytes [io.Copy] moves, and the error it stops with (never [io.EOF],
    which [io.Copy] does not return); or the reader's error. *)
Variable gzip_NewReader : list Byte.byte -> result (string * list Byte.byte * option GoError).

(** [ExtractGzFile(gzFilePath, destDir)]: [os.Open], [os.Stat] (an empty
    file is skipped with nil), [gzip.NewReader], [os.Create] of the
    output (which truncates an existing file), [io.Copy].  Opening a
    directory succeeds and the gzip reader then fails on it. *)
Definition ExtractGzFile (gzFilePath destDir : string) (fs : FS) : FS * option GoError :=
  match lookup_node fs (segs gzFilePath) with
  | None => (fs, Some (ErrWrap "failed to open .gz file" (ErrLib "open: no such file or directory")))
  | Some Dir => (fs, Some (ErrWrap "failed to create gzip reader" (ErrLib "read: is a directory")))
  | Some (File content) =>
      if Nat.eqb (length content) 0 then (fs, None)
      else
        match gzip_NewReader content with
        | Err e => (fs, Some (ErrWrap "failed to create gzip reader" e))
        | Ok (hname, data, copy_err) =>
            let outputFileName :=
              if String.eqb hname "" then Utils.TrimSuffix (Base gzFilePath) ".gz" else hname in
            let outputFilePath := Join [destDir; outputFileName] in
            match CreateWrite (segs outputFilePath) data fs with
            | (fs', Some e) => (fs', Some (ErrWrap "failed to create output file" e))
            | (fs', None) =>
                match copy_err with
                | Some e => (fs', Some (ErrWrap "failed to write decompressed data to file" e))
                | None => (fs', None)
                end
            end
        end
  end.

End Gz.

End GzFiles.

(* ------------------------------------------------------------------ *)
(** ** More concrete inputs *)

Module Uncompress.
Import Paths FS GzFiles.

(** [os.Remove(p)]: unlink a file, or remove an empty directory. *)
Definition Remove (p : path) (fs : FS) : FS * option GoError :=
  match lookup_node fs p with
  | None => (fs, Some (ErrLib "remove: no such file or directory"))
  | Some (File _) => (delete p fs, None)
  | Some Dir =>
      if existsb (fun k => Nat.ltb (length p) (length k) && bool_decide (firstn (length p) k = p))
                 (map fst (map_to_list fs))
      then (fs, Some (ErrLib "remove: directory not empty"))
      else (delete p fs, None)
  end.

(** The two [log.Printf] lines of the loop. *)
Inductive UncompressLog :=
| ExtractWarn (filePath : string) (err : GoError)
| RemoveFailed (err : GoError).

Section Loop.

Variable gzip_NewReader : list Byte.byte -> result (string * list Byte.byte * option GoError).

(** The [if opts.uncompressGzFiles] loop of the download command: for
    each listed file, [ExtractGzFile(file.FilePath, file.DirPath)], a
    warning when it fails, then [os.Remove(file.FilePath)] in any case. *)
Fixpoint uncompressLoop (files : list GzFileInfo) (fs : FS) : FS * list UncompressLog :=
  match files with
  | [] => (fs, [])
  | file :: rest =>
      let '(fs1, r) := ExtractGzFile gzip_NewReader (FilePath file) (DirPath file) fs in
      let l1 := match r with Some e => [ExtractWarn (FilePath file) e] | None => [] end in
      let '(fs2, r2) := Remove (segs (FilePath file)) fs1 in
      let l2 := match r2 with Some e => [RemoveFailed e] | None => [] end in
      let '(fs3, logs) := uncompressLoop rest fs2 in
      (fs3, l1 ++ l2 ++ logs)
  end.

End Loop.

End Uncompress.

Module ExtraFixtures.

(** [time.ParseDuration] on the hour counts used below. *)
Definition mock_ParseDuration (s : string) : result Z :=
  if String.eqb s "200000h" then Ok (200000 * 3600 * GoTime.Second)
  else if String.eqb s "213504h" then Ok (213504 * 3600 * GoTime.Second)
  else if String.eqb s "48h" then Ok (48 * 3600 * GoTime.Second)
  else Err (ErrLib ("time: invalid duration " +++ s)).

End ExtraFixtures.

(* ================================================================== *)
(** * Properties *)

(* ------------------------------------------------------------------ *)
(** ** TagFetcher *)

Module TagFetcherProofs.
Import TagFetcher.

Example buildTagsURL_page_1 :
  buildTagsURL "org/repo" 1
  = "https://quay.io/api/v1/repository/org/repo/tag/?limit=100&page=1".
Proof. reflexivity. Qed.

Lemma fetchPages_server_pages url_Parse http_Get repo (pages : list (list TagInfo)) :
  forall (k : nat) (acc : list TagInfo) (fuel : nat) (last : result TagResponse),
  (forall (i : nat) (p : list TagInfo), pages !! i = Some p ->
     sendTagsRequest url_Parse http_Get (buildTagsURL repo (S (k + i))) = Ok (mkTagResponse p)
     /\ p <> []) ->
  sendTagsRequest url_Parse http_Get (buildTagsURL repo (S (k + length pages))) = last ->
  (last = Ok (mkTagResponse []) \/ exists e, last = Err e) ->
  (length pages < fuel)%nat ->
  fetchPages url_Parse http_Get fuel repo (S k) acc
  = Some (match last with Ok _ => Ok (acc ++ concat pages) | Err e => Err e end).
Proof.
  induction pages as [|p ps IH]; intros k acc fuel last Hpages Hlast Hshape Hfuel.
  - destruct fuel as [|fuel]; [simpl in Hfuel; lia|].
    simpl. rewrite Nat.add_0_r in Hlast. rewrite Hlast.
    destruct Hshape as [-> | [e ->]]; simpl; [rewrite app_nil_r|]; reflexivity.
  - destruct fuel as [|fuel]; [simpl in Hfuel; lia|].
    destruct (Hpages 0%nat p eq_refl) as [Hp Hne].
    rewrite Nat.add_0_r in Hp.
    simpl. rewrite Hp. simpl.
    destruct p as [|t p']; [congruence|]. simpl.
    rewrite (IH (S k) (acc ++ t :: p') fuel last).
    + destruct last; [|reflexivity]. rewrite <- app_assoc. reflexivity.
    + intros i q Hq. replace (S k + i)%nat with (k + S i)%nat by lia.
      apply (Hpages (S i) q Hq).
    + simpl in Hlast. replace (S k + length ps)%nat with (k + S (length ps))%nat by lia.
      exact Hlast.
    + exact Hshape.
    + simpl in Hfuel. lia.
Qed.

(** C2: with [p0..p(n-1)] the non-empty pages the server returns for
    page numbers 1..n, FetchTags returns their concatenation in server
    order when page n+1 comes back with zero tags, and exactly the error
    (no partial list) when that request fails; every request asks for
    pages of 100 tags. *)
Theorem FetchTags_concatenates_pages url_Parse http_Get (repo : string)
    (pages : list (list TagInfo)) (last : result TagResponse) (fuel : nat) :
  (forall (i : nat) (p : list TagInfo), pages !! i = Some p ->
     sendTagsRequest url_Parse http_Get (buildTagsURL repo (S i)) = Ok (mkTagResponse p)
     /\ p <> []) ->
  sendTagsRequest url_Parse http_Get (buildTagsURL repo (S (length pages))) = last ->
  (last = Ok (mkTagResponse []) \/ exists e, last = Err e) ->
  (length pages < fuel)%nat ->
  FetchTags url_Parse http_Get fuel repo
  = Some (match last with Ok _ => Ok (concat pages) | Err e => Err e end)
  /\ (forall page : nat, buildTagsURL repo page
        = quayAPITagsURL +++ repo +++ "/tag/?limit=100&page=" +++ string_of_nat page).
Proof.
  intros Hpages Hlast Hshape Hfuel. split.
  - unfold FetchTags.
    apply (fetchPages_server_pages url_Parse http_Get repo pages 0 [] fuel last);
      assumption.
  - intros page. unfold buildTagsURL. simpl. reflexivity.
Qed.

End TagFetcherProofs.

(* ------------------------------------------------------------------ *)
(** ** Tar extraction never changes what already exists *)

Module ExtractProofs.
Import Paths FS Blobs.

Lemma mkdirAll_from_subseteq (rest : path) :
  forall (done : path) (fs fs' : FS) (r : option GoError),
  mkdirAll_from done rest fs = (fs', r) -> fs ⊆ fs'.
Proof.
  induction rest as [|s rest IH]; simpl; intros done fs fs' r H.
  - inversion H; subst. reflexivity.
  - destruct (fs !! (done ++ [s])) as [[|c]|] eqn:E.
    + eapply IH; eauto.
    + inversion H; subst. reflexivity.
    + transitivity (<[done ++ [s] := Dir]> fs).
      * apply insert_subseteq. exact E.
      * eapply IH; eauto.
Qed.

Lemma MkdirAll_subseteq (p : path) (fs fs' : FS) (r : option GoError) :
  MkdirAll p fs = (fs', r) -> fs ⊆ fs'.
Proof. apply mkdirAll_from_subseteq. Qed.

(** Every element of a successfully made path is a directory. *)
Lemma mkdirAll_from_dirs (rest : path) :
  forall (done : path) (fs fs' : FS),
  mkdirAll_from done rest fs = (fs', None) ->
  forall n : nat, (0 < n <= length rest)%nat -> fs' !! (done ++ take n rest) = Some Dir.
Proof.
  induction rest as [|s rest IH]; simpl; intros done fs fs' H n Hn; [lia|].
  destruct n as [|n]; [lia|]. simpl. rewrite cons_middle, app_assoc.
  destruct (fs !! (done ++ [s])) as [[|c]|] eqn:E.
  - destruct n as [|n].
    + simpl. rewrite app_nil_r.
      eapply lookup_weaken; [exact E|]. eapply mkdirAll_from_subseteq; eauto.
    + apply (IH (done ++ [s]) fs fs' H (S n)). lia.
  - discriminate.
  - destruct n as [|n].
    + simpl. rewrite app_nil_r.
      eapply lookup_weaken; [apply lookup_insert_eq|]. eapply mkdirAll_from_subseteq; eauto.
    + apply (IH (done ++ [s]) _ fs' H (S n)). lia.
Qed.

Lemma lookup_node_cons (fs : FS) (s : string) (p : path) :
  lookup_node fs (s :: p) = fs !! (s :: p).
Proof. reflexivity. Qed.

(** [os.Create] on a path where [os.Stat] fails adds that path only. *)
Lemma createFileFromTar_subseteq (data : list Byte.byte) (data_err : option GoError)
    (destPath : path) (fs fs' : FS) (r : option GoError) :
  Stat fs destPath = false ->
  createFileFromTar data data_err destPath fs = (fs', r) -> fs ⊆ fs'.
Proof.
  intros Hstat H. unfold createFileFromTar, CreateWrite in H.
  unfold Stat in Hstat.
  destruct destPath as [|s p]; [discriminate|].
  rewrite lookup_node_cons in Hstat, H.
  destruct (fs !! (s :: p)) eqn:E; [discriminate|].
  destruct (lookup_node fs (removelast (s :: p))) as [[|c]|];
    destruct data_err; inversion H; subst;
    solve [reflexivity | apply insert_subseteq; exact E].
Qed.

Lemma handleTarEntry_subseteq (h : Header) (data : list Byte.byte) (data_err : option GoError)
    (destPath : path) (fs fs' : FS) (r : option GoError) :
  handleTarEntry h data data_err destPath fs = (fs', r) -> fs ⊆ fs'.
Proof.
  unfold handleTarEntry. destruct (Typeflag h) as [| |c]; intros H.
  - destruct (Stat fs destPath) eqn:E.
    + inversion H; subst. reflexivity.
    + eapply createFileFromTar_subseteq; eauto.
  - eapply MkdirAll_subseteq; eauto.
  - inversion H; subst. reflexivity.
Qed.

Lemma extractEntries_subseteq (items : list TarItem) :
  forall (dest : path) (fs fs' : FS) (r : option GoError), extractEntries items dest fs = (fs', r) -> fs ⊆ fs'.
Proof.
  induction items as [|[h data data_err|e] rest IH]; simpl; intros dest fs fs' r H.
  - inversion H; subst. reflexivity.
  - destruct (handleTarEntry h data data_err (join_segs dest (hName h)) fs) as [fs1 [e|]] eqn:E.
    + inversion H; subst. eapply handleTarEntry_subseteq; eauto.
    + transitivity fs1; [eapply handleTarEntry_subseteq; eauto | eapply IH; eauto].
  - inversion H; subst. reflexivity.
Qed.

Lemma extractTarGz_subseteq (stream : TarStream) (dest : path) (fs fs' : FS) (r : option GoError) :
  extractTarGz stream dest fs = (fs', r) -> fs ⊆ fs'.
Proof.
  destruct stream as [e|items]; simpl; intros H.
  - inversion H; subst. reflexivity.
  - eapply extractEntries_subseteq; eauto.
Qed.

(** C3: a regular-file entry whose destination exists is skipped; a
    directory entry is made with all its parents; any other entry type is
    an error that stops this blob; so a second extraction of the same
    blob into the same destination leaves every file that existed before
    it byte for byte as it was. *)
Theorem extractTarGz_idempotent_additive :
  (forall (h : Header) (data : list Byte.byte) (data_err : option GoError) (destPath : path) (fs : FS),
     Typeflag h = TypeReg -> Stat fs destPath = true ->
     handleTarEntry h data data_err destPath fs = (fs, None))
  /\ (forall (h : Header) (data : list Byte.byte) (data_err : option GoError) (destPath : path) (fs fs' : FS),
     Typeflag h = TypeDir -> handleTarEntry h data data_err destPath fs = (fs', None) ->
     forall n : nat, (0 < n <= length destPath)%nat -> fs' !! take n destPath = Some Dir)
  /\ (forall (h : Header) (data : list Byte.byte) (data_err : option GoError) (destPath : path) (fs : FS) (c : ascii),
     Typeflag h = TypeOther c ->
     exists e, handleTarEntry h data data_err destPath fs = (fs, Some e))
  /\ (forall (stream : TarStream) (dest : path) (fs fs1 fs2 : FS) (r1 r2 : option GoError)
        (p : path) (b : list Byte.byte),
     extractTarGz stream dest fs = (fs1, r1) ->
     extractTarGz stream dest fs1 = (fs2, r2) ->
     fs1 !! p = Some (File b) -> fs2 !! p = Some (File b)).
Proof.
  split; [|split; [|split]].
  - intros h data data_err destPath fs Hreg Hstat.
    unfold handleTarEntry. rewrite Hreg, Hstat. reflexivity.
  - intros h data data_err destPath fs fs' Hdir H n Hn.
    unfold handleTarEntry in H. rewrite Hdir in H.
    apply (mkdirAll_from_dirs destPath [] fs fs' H n Hn).
  - intros h data data_err destPath fs c Hc.
    unfold handleTarEntry. rewrite Hc. eexists. reflexivity.
  - intros stream dest fs fs1 fs2 r1 r2 p b _ H2 Hp.
    eapply lookup_weaken; [exact Hp|]. eapply extractTarGz_subseteq; eauto.
Qed.

End ExtractProofs.

(* ------------------------------------------------------------------ *)
(** ** Which blobs are extracted *)

Module BlobProofs.
Import Paths FS Blobs.

Lemma byte_eqb_true (x y : Byte.byte) : Byte.eqb x y = true <-> x = y.
Proof. split; [apply Byte.byte_dec_bl | apply Byte.byte_dec_lb]. Qed.

(** [isTarGzBlob] on a non-empty file: the gzip magic or the suffix. *)
Lemma isTarGzBlob_spec (blobPath : string) (content : list Byte.byte) :
  content <> [] ->
  isTarGzBlob blobPath content = true
  <-> firstn 2 content = [Byte.x1f; Byte.x8b] \/ HasSuffix blobPath ".tar.gz" = true.
Proof.
  intros Hne. destruct content as [|b0 [|b1 rest]]; [congruence| |].
  - simpl. rewrite orb_true_iff, andb_true_iff, !byte_eqb_true.
    split; intros [H|H].
    + right; exact H.
    + destruct H as [_ H]; discriminate H.
    + discriminate H.
    + left; exact H.
  - simpl. rewrite orb_true_iff, andb_true_iff, !byte_eqb_true.
    split; intros [H|H].
    + right; exact H.
    + left; destruct H; subst; reflexivity.
    + right; inversion H; subst; split; reflexivity.
    + left; exact H.
Qed.

(** C4 (as the code does it): a non-empty blob beginning with 0x1F 0x8B
    or whose cleaned path ends in ".tar.gz" is handed to extractBlob; any
    other non-empty blob is ignored without an error; an empty blob is
    not extracted and yields the error "blob <path> is empty, skipping"
    (which processBlobs only logs). *)
Theorem processBlob_selects_archives (gunzip_untar : list Byte.byte -> TarStream)
    (extract_time : list Byte.byte -> Z) (blobPath : string) (content : list Byte.byte)
    (outputDir : path) (fs : FS) :
  ((content <> [] /\ (firstn 2 content = [Byte.x1f; Byte.x8b]
                      \/ HasSuffix (Clean blobPath) ".tar.gz" = true)) ->
     processBlob gunzip_untar extract_time blobPath content outputDir fs
     = extractBlob gunzip_untar extract_time (Clean blobPath) content outputDir fs)
  /\ ((content <> [] /\ ~ (firstn 2 content = [Byte.x1f; Byte.x8b]
                           \/ HasSuffix (Clean blobPath) ".tar.gz" = true)) ->
     processBlob gunzip_untar extract_time blobPath content outputDir fs = (fs, None, 0))
  /\ (content = [] ->
     processBlob gunzip_untar extract_time blobPath content outputDir fs
     = (fs, Some (ErrNew ("blob " +++ Clean blobPath +++ " is empty, skipping")), 0)).
Proof.
  unfold processBlob. split; [|split].
  - intros [Hne Hmagic].
    destruct content as [|b rest]; [congruence|]. simpl Nat.eqb. cbv iota beta.
    apply (isTarGzBlob_spec (Clean blobPath)) in Hmagic; [|discriminate].
    rewrite Hmagic. reflexivity.
  - intros [Hne Hnot].
    destruct content as [|b rest]; [congruence|]. simpl Nat.eqb. cbv iota beta.
    destruct (isTarGzBlob (Clean blobPath) (b :: rest)) eqn:E; [|reflexivity].
    exfalso. apply Hnot. apply (isTarGzBlob_spec (Clean blobPath) (b :: rest)); [discriminate|].
    exact E.
  - intros ->. reflexivity.
Qed.

(** C4 fails as stated: an empty file of the blob directory is not
    silently ignored, processBlob returns an error for it. *)
Lemma processBlob_empty_blob_is_error :
  exists e, processBlob (fun _ => Entries []) (fun _ => 0) "/cache/blobs/sha256/e3b0" []
              ["out"] ∅ = (∅, Some e, 0).
Proof. eexists. vm_compute. reflexivity. Qed.

End BlobProofs.

Module TagFetcherWitness.
Import TagFetcher Fixtures TagFetcherProofs.

Lemma FetchTags_concatenates_pages_witness :
  FetchTags mock_url_Parse mock_http_Get 3 "org/repo" = Some (Ok [tag_v1])
  /\ (forall page : nat, buildTagsURL "org/repo" page
        = quayAPITagsURL +++ "org/repo" +++ "/tag/?limit=100&page=" +++ string_of_nat page).
Proof.
  apply (FetchTags_concatenates_pages mock_url_Parse mock_http_Get "org/repo" [[tag_v1]]
           (Ok (mkTagResponse [])) 3).
  - intros [|i] p H; [|destruct i; discriminate H].
    injection H as <-. split; [vm_compute; reflexivity | discriminate].
  - vm_compute. reflexivity.
  - left. reflexivity.
  - simpl. lia.
Defined.

End TagFetcherWitness.

(* ------------------------------------------------------------------ *)
(** ** RepositoryProcessor *)

Module ProcessorProofs.
Import TagFetcher Processor ProcessorSpec.

Section Laws.

Variable World : Type.
Variable ProcessTag : string -> string -> string -> World -> World * option GoError.
Variable FetchTags : string -> result (list TagInfo).
Variable layout_parse : string -> option GoTime.Time.

Lemma pull_calls (repo : string) (ti : TagInfo) (st : PState World) :
  ps_calls (pull World ProcessTag repo ti st) = ps_calls st ++ [(repo, Name ti, LastModified ti)].
Proof. unfold pull. destruct (ProcessTag _ _ _ _). reflexivity. Qed.

(** The loop adds exactly [retainedCalls] and fails with the first
    unparseable date, whatever ProcessTag does. *)
Lemma processTags_spec (repo : string) (since : Z) (now : nat -> GoTime.Time)
    (tags : list TagInfo) :
  forall (i : nat) (st st' : PState World) (r : option GoError),
  processTags World ProcessTag layout_parse repo since now i tags st = (st', r) ->
  ps_calls st' = ps_calls st ++ retainedCalls layout_parse repo since now i tags
  /\ r = firstParseError layout_parse tags.
Proof.
  induction tags as [|ti rest IH]; simpl; intros i st st' r H.
  - inversion H; subst. rewrite app_nil_r. split; reflexivity.
  - unfold GoTime.Parse in *. destruct (layout_parse (LastModified ti)) as [t|] eqn:E.
    + destruct (IH (S i) _ st' r H) as [Hc Hr]. split; [|exact Hr].
      rewrite Hc. destruct ((GoTime.Since (now i) t <? since) && (2 <? Size ti)).
      * rewrite pull_calls, <- app_assoc. reflexivity.
      * reflexivity.
    + inversion H; subst. rewrite app_nil_r. split; reflexivity.
Qed.

Lemma processRepository_spec (repo : string) (since : Z) (now : nat -> GoTime.Time)
    (st st' : PState World) (r : option GoError) :
  processRepository World ProcessTag FetchTags layout_parse repo since now st = (st', r) ->
  ps_calls st' = ps_calls st ++ repoCalls FetchTags layout_parse repo since now
  /\ r = repoError FetchTags layout_parse repo.
Proof.
  unfold processRepository, repoCalls, repoError. destruct (FetchTags repo) as [tags|e].
  - apply processTags_spec.
  - intros H. inversion H; subst. rewrite app_nil_r. split; reflexivity.
Qed.

Lemma ProcessRepositories_spec (sched : list string) (since : Z)
    (now : string -> nat -> GoTime.Time) :
  forall (st st' : PState World) (errs : list GoError),
  ProcessRepositories World ProcessTag FetchTags layout_parse sched since now st = (st', errs) ->
  ps_calls st' = ps_calls st ++ flat_map (fun repo => repoCalls FetchTags layout_parse repo since (now repo)) sched
  /\ errs = flat_map (fun repo => match repoError FetchTags layout_parse repo with
                                  | Some e => [ErrWrap ("repository " +++ repo) e]
                                  | None => []
                                  end) sched.
Proof.
  induction sched as [|repo rest IH]; simpl; intros st st' errs H.
  - inversion H; subst. rewrite app_nil_r. split; reflexivity.
  - destruct (processRepository World ProcessTag FetchTags layout_parse repo since (now repo) st)
      as [st1 r] eqn:E1.
    destruct (ProcessRepositories World ProcessTag FetchTags layout_parse rest since now st1)
      as [st2 errs2] eqn:E2.
    inversion H; subst.
    destruct (processRepository_spec repo since (now repo) st st1 r E1) as [Hc1 Hr1].
    destruct (IH st1 st' errs2 E2) as [Hc2 Hr2].
    split.
    + rewrite Hc2, Hc1, <- app_assoc. reflexivity.
    + rewrite Hr2, Hr1. destruct (repoError FetchTags layout_parse repo); reflexivity.
Qed.



(** A tag whose date does not parse ends the loop with its error,
    whatever its window and size, after the tags before it. *)
Lemma processTags_stops_at_bad (repo : string) (since : Z) (now : nat -> GoTime.Time)
    (bad : TagInfo) (post : list TagInfo) :
  layout_parse (LastModified bad) = None ->
  forall (pre : list TagInfo) (i : nat) (st : PState World),
  Forall (fun ti => exists t, layout_parse (LastModified ti) = Some t) pre ->
  processTags World ProcessTag layout_parse repo since now i (pre ++ bad :: post) st
  = (fst (processTags World ProcessTag layout_parse repo since now i pre st),
     Some (ErrWrap ("failed to parse creation date " +++ LastModified bad)
             (ErrLib ("parsing time " +++ LastModified bad +++ " as RFC1123")))).
Proof.
  intros Hbad pre. induction pre as [|ti rest IH]; intros i st Hpre.
  - simpl. unfold GoTime.Parse. rewrite Hbad. reflexivity.
  - inversion Hpre as [|? ? [t Ht] Hrest]; subst.
    simpl. unfold GoTime.Parse. rewrite Ht. apply IH. exact Hrest.
Qed.

End Laws.

End ProcessorProofs.

Module ProcessorClaims.
Import TagFetcher Processor ProcessorSpec ProcessorProofs.

Section Claims.

Variable World : Type.
Variable ProcessTag : string -> string -> string -> World -> World * option GoError.
Variable FetchTags : string -> result (list TagInfo).
Variable layout_parse : string -> option GoTime.Time.


(** C5: with [A] and [C] fetching one tag each inside the window and of
    size > 2, and [B]'s fetch failing, ProcessRepositories (in any order
    of the goroutines) reports exactly one error, the one of [B], and
    pulls the tags of [A] and [C]; in general the aggregate holds each
    repository's own error and every repository is processed, whatever
    the others do. *)
Theorem ProcessRepositories_isolates_failures (A B C : string) (tA tC : TagInfo)
    (tmA tmC : GoTime.Time) (eB : GoError) (since : Z) (now : string -> nat -> GoTime.Time)
    (sched : list string) (st st' : PState World) (errs : list GoError) :
  FetchTags A = Ok [tA] -> FetchTags B = Err eB -> FetchTags C = Ok [tC] ->
  layout_parse (LastModified tA) = Some tmA -> layout_parse (LastModified tC) = Some tmC ->
  GoTime.Since (now A 0%nat) tmA < since -> GoTime.Since (now C 0%nat) tmC < since ->
  2 < Size tA -> 2 < Size tC ->
  Permutation sched [A; B; C] ->
  ProcessRepositories World ProcessTag FetchTags layout_parse sched since now st = (st', errs) ->
  errs = [ErrWrap ("repository " +++ B) (ErrWrap ("failed to fetch tags for repository " +++ B) eB)]
  /\ (exists new, ps_calls st' = ps_calls st ++ new
        /\ Permutation new [(A, Name tA, LastModified tA); (C, Name tC, LastModified tC)])
  /\ (forall (sched' : list string) (s0 s1 : PState World) (errs' : list GoError),
        ProcessRepositories World ProcessTag FetchTags layout_parse sched' since now s0 = (s1, errs') ->
        ps_calls s1 = ps_calls s0
                      ++ flat_map (fun repo => repoCalls FetchTags layout_parse repo since (now repo)) sched'
        /\ errs' = flat_map (fun repo => match repoError FetchTags layout_parse repo with
                                         | Some e => [ErrWrap ("repository " +++ repo) e]
                                         | None => []
                                         end) sched').
Proof.
  intros HA HB HC HtA HtC HsA HsC HzA HzC Hperm Hrun.
  destruct (ProcessRepositories_spec World ProcessTag FetchTags layout_parse
              sched since now st st' errs Hrun) as [Hc He].
  assert (EA : repoError FetchTags layout_parse A = None).
  { unfold repoError. rewrite HA. simpl. unfold GoTime.Parse. rewrite HtA. reflexivity. }
  assert (EC : repoError FetchTags layout_parse C = None).
  { unfold repoError. rewrite HC. simpl. unfold GoTime.Parse. rewrite HtC. reflexivity. }
  assert (EB : repoError FetchTags layout_parse B
               = Some (ErrWrap ("failed to fetch tags for repository " +++ B) eB)).
  { unfold repoError. rewrite HB. reflexivity. }
  assert (CA : repoCalls FetchTags layout_parse A since (now A) = [(A, Name tA, LastModified tA)]).
  { unfold repoCalls. rewrite HA. simpl. rewrite HtA.
    apply Z.ltb_lt in HsA, HzA. rewrite HsA, HzA. reflexivity. }
  assert (CC : repoCalls FetchTags layout_parse C since (now C) = [(C, Name tC, LastModified tC)]).
  { unfold repoCalls. rewrite HC. simpl. rewrite HtC.
    apply Z.ltb_lt in HsC, HzC. rewrite HsC, HzC. reflexivity. }
  assert (CB : repoCalls FetchTags layout_parse B since (now B) = []).
  { unfold repoCalls. rewrite HB. reflexivity. }
  split; [|split].
  - rewrite He. apply Permutation_length_1_inv. symmetry.
    etransitivity; [apply Permutation_flat_map; exact Hperm|].
    simpl. rewrite EA, EB, EC. reflexivity.
  - eexists. split; [exact Hc|].
    etransitivity; [apply Permutation_flat_map; exact Hperm|].
    simpl. rewrite CA, CB, CC. reflexivity.
  - intros sched' s0 s1 errs' H.
    exact (ProcessRepositories_spec World ProcessTag FetchTags layout_parse sched' since now s0 s1 errs' H).
Qed.

(** C7 (as the code does it): a failing ProcessTag call is only logged
    ([log.Printf], a [TagFailure] line), never recorded in the aggregate
    result; the loop goes on with the remaining tags, so every retained
    tag of the repository is still pulled; and the aggregate of
    ProcessRepositories holds only fetch and date-parse errors, whatever
    ProcessTag returns, with every repository processed. *)
Theorem pull_failure_logged_not_aggregated :
  (forall (repo : string) (ti : TagInfo) (st : PState World) (w' : World) (e : GoError),
     ProcessTag repo (Name ti) (LastModified ti) (ps_world st) = (w', Some e) ->
     pull World ProcessTag repo ti st
     = mkPState w' (ps_log st ++ [TagFailure (Name ti) repo e])
                   (ps_calls st ++ [(repo, Name ti, LastModified ti)]))
  /\ (forall (repo : string) (since : Z) (now : nat -> GoTime.Time) (tags : list TagInfo)
        (st st' : PState World) (r : option GoError),
        processTags World ProcessTag layout_parse repo since now 0 tags st = (st', r) ->
        ps_calls st' = ps_calls st ++ retainedCalls layout_parse repo since now 0 tags
        /\ r = firstParseError layout_parse tags)
  /\ (forall (sched : list string) (since : Z) (now : string -> nat -> GoTime.Time)
        (st st' : PState World) (errs : list GoError),
        ProcessRepositories World ProcessTag FetchTags layout_parse sched since now st = (st', errs) ->
        ps_calls st' = ps_calls st
                       ++ flat_map (fun repo => repoCalls FetchTags layout_parse repo since (now repo)) sched
        /\ errs = flat_map (fun repo => match repoError FetchTags layout_parse repo with
                                        | Some e => [ErrWrap ("repository " +++ repo) e]
                                        | None => []
                                        end) sched).
Proof.
  split; [|split].
  - intros repo ti st w' e H. unfold pull. rewrite H. reflexivity.
  - intros repo since now tags st st' r H.
    exact (processTags_spec World ProcessTag layout_parse repo since now tags 0 st st' r H).
  - intros sched since now st st' errs H.
    exact (ProcessRepositories_spec World ProcessTag FetchTags layout_parse sched since now st st' errs H).
Qed.

(** C9: when the fetched tags are [pre ++ bad :: post], every date in
    [pre] parses and [bad]'s LastModified is not RFC1123, processRepository
    returns the parse error of [bad] (whatever [bad]'s size and age: the
    date is parsed before the filter), its state is the one left by the
    tags of [pre] alone, and no tag of [bad :: post] is pulled. *)
Theorem processRepository_aborts_on_bad_date (repo : string) (pre : list TagInfo)
    (bad : TagInfo) (post : list TagInfo) (since : Z) (now : nat -> GoTime.Time)
    (st st' : PState World) (r : option GoError) :
  FetchTags repo = Ok (pre ++ bad :: post) ->
  Forall (fun ti => exists t, layout_parse (LastModified ti) = Some t) pre ->
  layout_parse (LastModified bad) = None ->
  processRepository World ProcessTag FetchTags layout_parse repo since now st = (st', r) ->
  r = Some (ErrWrap ("failed to parse creation date " +++ LastModified bad)
              (ErrLib ("parsing time " +++ LastModified bad +++ " as RFC1123")))
  /\ st' = fst (processTags World ProcessTag layout_parse repo since now 0 pre st)
  /\ ps_calls st' = ps_calls st ++ retainedCalls layout_parse repo since now 0 pre.
Proof.
  intros Hfetch Hpre Hbad Hrun.
  unfold processRepository in Hrun. rewrite Hfetch in Hrun.
  rewrite (processTags_stops_at_bad World ProcessTag layout_parse repo since now bad post
             Hbad pre 0 st Hpre) in Hrun.
  inversion Hrun; subst. split; [reflexivity|split; [reflexivity|]].
  destruct (processTags World ProcessTag layout_parse repo since now 0 pre st) as [s1 r1] eqn:E.
  exact (proj1 (processTags_spec World ProcessTag layout_parse repo since now pre 0 st s1 r1 E)).
Qed.

End Claims.

End ProcessorClaims.

Module ProcessorExamples.
Import TagFetcher Processor ProcessorSpec ProcessorClaims Fixtures.



Lemma ProcessRepositories_isolates_failures_witness :
  exists new, ps_calls (mkPState tt [] [("org/a", "v1", date2006); ("org/c", "v1", date2006)])
              = ps_calls st0 ++ new
              /\ Permutation new [("org/a", Name tag_v1, LastModified tag_v1);
                                  ("org/c", Name tag_v1, LastModified tag_v1)].
Proof.
  destruct (ProcessRepositories_isolates_failures unit tag_ok fetch_abc parse_one
              "org/a" "org/b" "org/c" tag_v1 tag_v1 t2006 t2006 (ErrNew "connection reset")
              day (fun _ => now_1h) ["org/a"; "org/b"; "org/c"] st0
              (mkPState tt [] [("org/a", "v1", date2006); ("org/c", "v1", date2006)])
              [ErrWrap ("repository " +++ "org/b")
                 (ErrWrap ("failed to fetch tags for repository " +++ "org/b")
                    (ErrNew "connection reset"))])
    as [_ [Hnew _]].
  - reflexivity.
  - reflexivity.
  - reflexivity.
  - vm_compute. reflexivity.
  - vm_compute. reflexivity.
  - vm_compute. reflexivity.
  - vm_compute. reflexivity.
  - vm_compute. reflexivity.
  - vm_compute. reflexivity.
  - apply Permutation_refl.
  - vm_compute. reflexivity.
  - exact Hnew.
Defined.

(** A pull fails: the failure reaches the log, the aggregate is empty. *)
Lemma ProcessRepositories_drops_pull_failure :
  ProcessRepositories unit tag_fail (fun _ => Ok [tag_v1]) parse_one ["org/repo"] day
    (fun _ => now_1h) st0
  = (mkPState tt [TagFailure "v1" "org/repo" (ErrNew "manifest unknown")]
              [("org/repo", "v1", date2006)], []).
Proof. vm_compute. reflexivity. Qed.

Lemma processRepository_aborts_on_bad_date_witness :
  ps_calls (mkPState tt [] [("org/repo", "v1", date2006)])
  = ps_calls st0 ++ retainedCalls parse_one "org/repo" day now_1h 0 [tag_v1].
Proof.
  destruct (processRepository_aborts_on_bad_date unit tag_ok
              (fun _ => Ok [tag_v1; tag_bad; tag_v2]) parse_one "org/repo"
              [tag_v1] tag_bad [tag_v2] day now_1h st0
              (mkPState tt [] [("org/repo", "v1", date2006)])
              (Some (ErrWrap ("failed to parse creation date " +++ LastModified tag_bad)
                       (ErrLib ("parsing time " +++ LastModified tag_bad +++ " as RFC1123")))))
    as [_ [_ Hc]].
  - reflexivity.
  - constructor; [exists t2006; vm_compute; reflexivity | constructor].
  - vm_compute. reflexivity.
  - vm_compute. reflexivity.
  - exact Hc.
Defined.

End ProcessorExamples.

Module PullerProofs.
Import Paths FS Blobs Puller ExtractProofs.

Section Tag.

Variable gunzip_untar : list Byte.byte -> TarStream.
Variable extract_time : list Byte.byte -> Z.
Variable layout_parse : string -> option GoTime.Time.
Variable setupRemoteRepository : string -> option GoError.
Variable oras_Copy : Z -> string -> string -> World -> World * option GoError.

Lemma processBlob_time_bound (blobPath : string) (content : list Byte.byte)
    (outputDir : path) (fs fs' : FS) (r : option GoError) (d : Z) :
  processBlob gunzip_untar extract_time blobPath content outputDir fs = (fs', r, d) ->
  d <= extractTimeout.
Proof.
  unfold processBlob, extractBlob. intros H.
  destruct (Nat.eqb (length content) 0).
  - inversion H; subst. vm_compute. discriminate.
  - destruct (isTarGzBlob (Clean blobPath) content).
    + destruct (extractTarGz (gunzip_untar content) outputDir fs) as [fs1 r1].
      destruct (extractTimeout <? extract_time content) eqn:E; inversion H; subst.
      * lia.
      * apply Z.ltb_ge in E. exact E.
    + inversion H; subst. vm_compute. discriminate.
Qed.

(** Each HandleBlob goroutine is bounded by its own 1-minute timeout. *)
Lemma handleBlobs_time_bound (c : Controller) (outputDir : path) (entries : list DirEntry) :
  forall (fs fs' : FS) (errs : list GoError) (durs : list Z),
  handleBlobs gunzip_untar extract_time c outputDir entries fs = (fs', errs, durs) ->
  Forall (fun d => d <= extractTimeout) durs.
Proof.
  induction entries as [|e rest IH]; simpl; intros fs fs' errs durs H.
  - inversion H; subst. constructor.
  - destruct (de_isDir e); [eapply IH; exact H|].
    destruct (processBlob gunzip_untar extract_time (Join [BlobDir c; de_name e])
                (de_content e) outputDir fs) as [[fs1 r] d] eqn:Eb.
    destruct (handleBlobs gunzip_untar extract_time c outputDir rest fs1) as [[fs2 errs'] ds] eqn:Er.
    inversion H; subst. constructor.
    + exact (processBlob_time_bound _ _ _ _ _ _ _ Eb).
    + exact (IH _ _ _ _ Er).
Qed.

(** C6 (as the code does it): the 2-minute context of ProcessTag
    reaches the manifest copy only, whose failure (a missed deadline
    included) is returned wrapped with the tag; once the copy and the
    output directory are done, the blobs are handled with no deadline for
    the call: each extraction has its own 1-minute timeout, their errors
    are only logged, and ProcessTag returns [nil] however long the call
    ran (for at most 10 blob errors, which the error channel holds). *)
Theorem ProcessTag_deadline_covers_copy_only :
  (forall (c : Controller) (repo tag creationDate : string) (w w1 : World) (e : GoError),
     setupRemoteRepository repo = None ->
     oras_Copy (w_clock w + blobTimeout) repo tag w = (w1, Some e) ->
     ProcessTag gunzip_untar extract_time layout_parse setupRemoteRepository oras_Copy
       c repo tag creationDate w
     = Returns (w1, Some (ErrWrap ("failed to copy manifest for tag " +++ tag) e)))
  /\ (forall (c : Controller) (repo tag creationDate : string) (w w1 : World) (fs2 : FS)
        (entries : list DirEntry) (fs3 : FS) (errs : list GoError) (durs : list Z),
     let outputDir := createOutputDirectory layout_parse c repo creationDate tag in
     setupRemoteRepository repo = None ->
     oras_Copy (w_clock w + blobTimeout) repo tag w = (w1, None) ->
     MkdirAll (segs outputDir) (w_fs w1) = (fs2, None) ->
     w_blobdir w1 = Some entries ->
     handleBlobs gunzip_untar extract_time c (segs outputDir) entries fs2 = (fs3, errs, durs) ->
     (length errs <= 10)%nat ->
     Forall (fun d => d <= extractTimeout) durs
     /\ ProcessTag gunzip_untar extract_time layout_parse setupRemoteRepository oras_Copy
          c repo tag creationDate w
        = Returns (mkWorld (w_clock w1 + makespan 10 durs) fs3 (Some entries)
                     (w_log w1 ++ errs), None)).
Proof.
  split.
  - intros c repo tag creationDate w w1 e Hs Hc.
    unfold ProcessTag, copyTagManifest. rewrite Hs, Hc. reflexivity.
  - intros c repo tag creationDate w w1 fs2 entries fs3 errs durs outputDir Hs Hc Hm Hb Hh Hn.
    split; [exact (handleBlobs_time_bound c _ entries _ _ _ _ Hh)|].
    unfold ProcessTag, copyTagManifest. rewrite Hs, Hc.
    fold outputDir. rewrite Hm.
    unfold processBlobs. simpl. rewrite Hb, Hh.
    replace (Nat.ltb 10 (length errs)) with false by (symmetry; apply Nat.ltb_ge; exact Hn).
    reflexivity.
Qed.

(** C10: for a creationDate that is not RFC1123 the parse error is
    dropped and the date element is the zero time's "0001-01-01"; once
    the remote set-up and the copy succeed, ProcessTag creates
    [OutputDir/repo/0001-01-01/tag] (every element of it is then a
    directory) and hands it to processBlobs, with no error about the date. *)
Theorem ProcessTag_unparseable_date_uses_zero_day :
  forall (c : Controller) (repo tag creationDate : string),
  layout_parse creationDate = None ->
  createOutputDirectory layout_parse c repo creationDate tag
  = Join [OutputDir c; repo; "0001-01-01"; tag]
  /\ (forall (w w1 : World),
      setupRemoteRepository repo = None ->
      oras_Copy (w_clock w + blobTimeout) repo tag w = (w1, None) ->
      let outputDir := Join [OutputDir c; repo; "0001-01-01"; tag] in
      match MkdirAll (segs outputDir) (w_fs w1) with
      | (fs2, None) =>
          (forall n : nat, (0 < n <= length (segs outputDir))%nat ->
             fs2 !! take n (segs outputDir) = Some Dir)
          /\ ProcessTag gunzip_untar extract_time layout_parse setupRemoteRepository oras_Copy
               c repo tag creationDate w
             = processBlobs gunzip_untar extract_time c outputDir (set_fs w1 fs2)
      | (fs2, Some e) =>
          ProcessTag gunzip_untar extract_time layout_parse setupRemoteRepository oras_Copy
            c repo tag creationDate w
          = Returns (set_fs w1 fs2,
                     Some (ErrWrap ("failed to create output directory " +++ outputDir) e))
      end).
Proof.
  intros c repo tag creationDate Hp.
  assert (Hd : createOutputDirectory layout_parse c repo creationDate tag
               = Join [OutputDir c; repo; "0001-01-01"; tag]).
  { unfold createOutputDirectory, GoTime.Parse. rewrite Hp. reflexivity. }
  split; [exact Hd|].
  intros w w1 Hs Hc outputDir.
  unfold ProcessTag, copyTagManifest. rewrite Hs, Hc. rewrite Hd. fold outputDir.
  destruct (MkdirAll (segs outputDir) (w_fs w1)) as [fs2 [e|]] eqn:Hm; [reflexivity|].
  split; [|reflexivity].
  intros n Hn. exact (mkdirAll_from_dirs (segs outputDir) [] (w_fs w1) fs2 Hm n Hn).
Qed.

End Tag.

End PullerProofs.

Module PullerExamples.
Import Paths Puller PullerProofs Fixtures.

(** The copy takes 100 s and the one blob 59 s: the call runs 159 s,
    past the 2-minute mark, and still returns [nil]. *)
Lemma ProcessTag_runs_past_two_minutes :
  exists w' : World,
    ProcessTag untar_empty time_59s parse_one setup_ok copy_100s ctl "org/repo" "v1" date2006 w0
    = Returns (w', None)
    /\ blobTimeout < w_clock w' - w_clock w0.
Proof. eexists. split; vm_compute; reflexivity. Qed.

Lemma ProcessTag_unparseable_date_uses_zero_day_witness :
  createOutputDirectory parse_one ctl "org/repo" "garbage" "v1"
  = Join [OutputDir ctl; "org/repo"; "0001-01-01"; "v1"]
  /\ Join [OutputDir ctl; "org/repo"; "0001-01-01"; "v1"] = "/out/org/repo/0001-01-01/v1".
Proof.
  split.
  - exact (proj1 (ProcessTag_unparseable_date_uses_zero_day untar_empty time_59s parse_one
                    setup_ok copy_100s ctl "org/repo" "v1" "garbage"
                    ltac:(vm_compute; reflexivity))).
  - vm_compute. reflexivity.
Defined.

End PullerExamples.

Module ScannerProofs.
Import Scanner Fixtures.

(** C8: the scan tests every path the walk visits, directories included,
    against the patterns.  With the default filter, the directory
    "cluster-provision-logs" matches "cluster-provision.log" (the dot
    matches any character), reading it fails, and the scan stops with
    that error before the regular file inside it, whose path matches too,
    is indexed.  The example of the claim does hold. *)
Theorem processExtractedFiles_reads_matching_dirs :
  processExtractedFiles Regexp.MatchString default_filter "/tmp/artifacts" provision_tree ∅
  = (∅, Some (ErrLib "read /tmp/artifacts/cluster-provision-logs: is a directory"))
  /\ isRequiredFile Regexp.MatchString default_filter
       "/tmp/artifacts/cluster-provision-logs/cluster-provision.log" = true
  /\ processExtractedFiles Regexp.MatchString ["e2e-report\.xml$"] "/tmp/artifacts" report_tree ∅
     = ({[ "/tmp/artifacts/suite1/e2e-report.xml" := mkArtifact "<ok/>" "e2e-report.xml" ]}, None).
Proof. split; [|split]; vm_compute; reflexivity. Qed.

End ScannerProofs.

Module WalkProofs.
Import Scanner TreeWalk.

Section WP.

Variable MatchString : string -> string -> bool.
Variable FileNameFilter : list string.

Lemma walk_list_app (l1 l2 : list (string * Tree)) (m : gmap string Artifact) :
  walk_list MatchString FileNameFilter (l1 ++ l2) m
  = match walk_list MatchString FileNameFilter l1 m with
    | (m', Some e) => (m', Some e)
    | (m', None) => walk_list MatchString FileNameFilter l2 m'
    end.
Proof.
  revert m. induction l1 as [|[q n] rest IH]; intros m; simpl; [reflexivity|].
  destruct (visit MatchString FileNameFilter q n m) as [m' [e|]]; [reflexivity|apply IH].
Qed.

Lemma walk_eq : forall (t : Tree) (p : string) (m : gmap string Artifact),
  walk MatchString FileNameFilter p t m = walk_list MatchString FileNameFilter (tree_entries p t) m.
Proof.
  fix IH 1. intros [name content | name cs] p m.
  - simpl. destruct (visit MatchString FileNameFilter p (TFile name content) m) as [m' [e|]];
      reflexivity.
  - simpl. destruct (visit MatchString FileNameFilter p (TDir name cs) m) as [m' [e|]];
      [reflexivity|].
    revert m'. induction cs as [|c rest IHc]; intros m0; [reflexivity|].
    rewrite walk_list_app, <- IH.
    destruct (walk MatchString FileNameFilter (Paths.Join [p; tree_name c]) c m0) as [m1 [e|]];
      [reflexivity|apply IHc].
Qed.

End WP.

End WalkProofs.

Module StrLemmas.

Lemma substring_0_length (s : string) : String.substring 0 (String.length s) s = s.
Proof. induction s as [|c s IH]; simpl; [reflexivity|now rewrite IH]. Qed.

Lemma length_app (s t : string) : String.length (s +++ t) = (String.length s + String.length t)%nat.
Proof. induction s as [|c s IH]; simpl; [reflexivity|now rewrite IH]. Qed.

Lemma prefix_app (p x : string) : String.prefix p (p +++ x) = true.
Proof.
  induction p as [|c p IH]; simpl; [destruct x; reflexivity|].
  destruct (ascii_dec c c) as [_|n]; [exact IH|congruence].
Qed.

Lemma prefix_spec (p : string) : forall s : string,
  String.prefix p s = true ->
  s = p +++ String.substring (String.length p) (String.length s - String.length p) s.
Proof.
  induction p as [|c p IH]; intros s H.
  - simpl. rewrite Nat.sub_0_r, substring_0_length. reflexivity.
  - destruct s as [|d s]; simpl in H; [discriminate|].
    destruct (ascii_dec c d) as [<-|]; [|discriminate].
    change (String c s = String c (p +++ String.substring (String.length p)
                                          (String.length s - String.length p) s)).
    f_equal. exact (IH s H).
Qed.

Lemma substring_app_right (p x : string) :
  String.substring (String.length p) (String.length (p +++ x) - String.length p) (p +++ x) = x.
Proof.
  rewrite length_app. replace (String.length p + String.length x - String.length p)%nat
    with (String.length x) by lia.
  induction p as [|c p IH]; simpl; [apply substring_0_length|exact IH].
Qed.

Lemma cut_at_app (c : ascii) (a b : string) :
  ~ In c (list_ascii_of_string a) -> Utils.cut_at c (a +++ String c b) = Some (a, b).
Proof.
  induction a as [|d a IH]; simpl; intros H.
  - rewrite Ascii.eqb_refl. reflexivity.
  - destruct (Ascii.eqb d c) eqn:E.
    + apply Ascii.eqb_eq in E. subst. exfalso. apply H. left. reflexivity.
    + rewrite IH; [reflexivity|]. intros Hin. apply H. right. exact Hin.
Qed.

Lemma cut_at_some (c : ascii) (s : string) : forall a b : string,
  Utils.cut_at c s = Some (a, b) -> s = a +++ String c b /\ ~ In c (list_ascii_of_string a).
Proof.
  induction s as [|d s IH]; simpl; intros a b H; [discriminate|].
  destruct (Ascii.eqb d c) eqn:E.
  - apply Ascii.eqb_eq in E. subst. inversion H; subst. split; [reflexivity|simpl; tauto].
  - destruct (Utils.cut_at c s) as [[a' b']|] eqn:C; [|discriminate].
    inversion H; subst. destruct (IH _ _ eq_refl) as [-> Hn]. split; [reflexivity|].
    simpl. intros [Hdc|Hin]; [|exact (Hn Hin)].
    subst. rewrite Ascii.eqb_refl in E. discriminate.
Qed.

Lemma cut_at_none (c : ascii) (s : string) :
  Utils.cut_at c s = None -> ~ In c (list_ascii_of_string s).
Proof.
  induction s as [|d s IH]; simpl; intros H; [tauto|].
  destruct (Ascii.eqb d c) eqn:E; [discriminate|].
  destruct (Utils.cut_at c s) as [[a b]|]; [discriminate|].
  intros [Hdc|Hin]; [|exact (IH eq_refl Hin)].
  subst. rewrite Ascii.eqb_refl in E. discriminate.
Qed.

End StrLemmas.

Module UtilsProofs.
Import Utils StrLemmas.

Lemma TrimPrefix_quay (x : string) : TrimPrefix ("quay.io/" +++ x) "quay.io/" = x.
Proof.
  unfold TrimPrefix, HasPrefix. rewrite (prefix_app "quay.io/" x).
  exact (substring_app_right "quay.io/" x).
Qed.

(** ParseRepoAndTag succeeds exactly on "quay.io/<repo>:<tag>" with a
    repository free of ':', and splits at the first ':' (the tag may
    contain ':', either part may be empty). *)
Theorem ParseRepoAndTag_ok_iff (s repo tag : string) :
  ParseRepoAndTag s = Ok (repo, tag)
  <-> s = "quay.io/" +++ repo +++ ":" +++ tag /\ ~ In ":"%char (list_ascii_of_string repo).
Proof.
  split.
  - unfold ParseRepoAndTag. destruct (HasPrefix s "quay.io/") eqn:H; [|discriminate]. simpl.
    pose proof (prefix_spec "quay.io/" s H) as Hs.
    unfold SplitN2. destruct (cut_at ":" (TrimPrefix s "quay.io/")) as [[a b]|] eqn:C;
      [|discriminate].
    intros E. inversion E; subst.
    destruct (cut_at_some _ _ _ _ C) as [Hr Hn]. split; [|exact Hn].
    unfold TrimPrefix in Hr. rewrite H in Hr. rewrite Hs at 1. rewrite Hr. reflexivity.
  - intros [-> Hn]. unfold ParseRepoAndTag.
    replace (HasPrefix ("quay.io/" +++ repo +++ ":" +++ tag) "quay.io/") with true
      by (symmetry; apply prefix_app).
    simpl negb. cbv iota. rewrite TrimPrefix_quay. unfold SplitN2.
    change (":" +++ tag) with (String ":" tag). rewrite cut_at_app by exact Hn. reflexivity.
Qed.

(** ParseRepoAndTag fails only on a flag without the "quay.io/" prefix,
    or on one whose remainder has no ':'. *)
Theorem ParseRepoAndTag_errors (s : string) (e : GoError) :
  ParseRepoAndTag s = Err e ->
  (HasPrefix s "quay.io/" = false /\ e = ErrNew "the repository must start with 'quay.io/'")
  \/ (exists rest, s = "quay.io/" +++ rest /\ ~ In ":"%char (list_ascii_of_string rest)
                   /\ e = ErrNew "tag is missing in the repo flag").
Proof.
  unfold ParseRepoAndTag. destruct (HasPrefix s "quay.io/") eqn:H; simpl; intros E.
  - right. exists (TrimPrefix s "quay.io/").
    pose proof (prefix_spec "quay.io/" s H) as Hs.
    unfold SplitN2 in E. destruct (cut_at ":" (TrimPrefix s "quay.io/")) as [[a b]|] eqn:C;
      [discriminate E|].
    inversion E; subst. split; [|split; [exact (cut_at_none _ _ C)|reflexivity]].
    unfold TrimPrefix. rewrite H. exact Hs.
  - inversion E; subst. left. split; reflexivity.
Qed.

End UtilsProofs.

Module DownloadProofs.
Import Download StrLemmas.

Lemma get_app_length (s t : string) :
  String.get (String.length s) (s +++ t) = String.get 0 t.
Proof. induction s as [|c s IH]; simpl; [reflexivity|exact IH]. Qed.

Lemma substring_app_left (s t : string) :
  String.substring 0 (String.length s) (s +++ t) = s.
Proof. induction s as [|c s IH]; simpl; [destruct t; reflexivity|now rewrite IH]. Qed.

Section D.

Variable ParseDuration : string -> result Z.

Lemma parseDuration_days_unfold (ds : string) :
  ds <> EmptyString ->
  parseDuration ParseDuration (ds +++ "d")
  = match ParseDuration (ds +++ "h") with
    | Err e => Err e
    | Ok hours => Ok (wrap64 (hours * 24))
    end.
Proof.
  intros Hne. unfold parseDuration.
  rewrite length_app. change (String.length "d") with 1%nat.
  replace (String.length ds + 1 - 1)%nat with (String.length ds) by lia.
  rewrite get_app_length, substring_app_left. simpl String.get.
  replace (Nat.ltb 1 (String.length ds + 1)) with true.
  - reflexivity.
  - symmetry. apply Nat.ltb_lt. destruct ds; [congruence|simpl; lia].
Qed.

(** A "--since" value "<n>d" is [ParseDuration("<n>h") * 24] in int64
    arithmetic (wrapped modulo 2^64), with no error: exact while the
    product fits in a Duration, and negative when it lies between
    maxDuration and 2^64 (from 106752 to 213503 days); larger counts
    wrap further, to positive or negative values. *)
Theorem parseDuration_days (ds : string) (h : Z) :
  ds <> EmptyString -> ParseDuration (ds +++ "h") = Ok h ->
  parseDuration ParseDuration (ds +++ "d") = Ok (wrap64 (h * 24))
  /\ (GoTime.minDuration <= h * 24 <= GoTime.maxDuration ->
     parseDuration ParseDuration (ds +++ "d") = Ok (h * 24))
  /\ (GoTime.maxDuration < h * 24 < 2 ^ 64 ->
     exists d, parseDuration ParseDuration (ds +++ "d") = Ok d /\ d = h * 24 - 2 ^ 64 /\ d < 0).
Proof.
  intros Hne Hp. rewrite (parseDuration_days_unfold ds Hne), Hp.
  split; [reflexivity|].
  unfold wrap64, GoTime.minDuration, GoTime.maxDuration. split.
  - intros Hr. rewrite Z.mod_small by lia. f_equal. lia.
  - intros Hr. eexists. split; [reflexivity|].
    replace (h * 24 + 2 ^ 63) with ((h * 24 + 2 ^ 63 - 2 ^ 64) + 1 * 2 ^ 64) by ring.
    rewrite Z_mod_plus_full, Z.mod_small by lia. lia.
Qed.

End D.

End DownloadProofs.

Module DownloadExamples.
Import Download DownloadProofs ExtraFixtures.

Lemma parseDuration_days_witness :
  (exists d, parseDuration mock_ParseDuration "200000d" = Ok d /\ d < 0)
  /\ parseDuration mock_ParseDuration "213504d" = Ok 1526290448384.
Proof.
  split.
  - destruct (parseDuration_days mock_ParseDuration "200000" (200000 * 3600 * GoTime.Second)
                ltac:(discriminate) ltac:(vm_compute; reflexivity)) as [_ [_ Hover]].
    destruct Hover as [d [Hd [_ Hneg]]].
    + vm_compute. split; reflexivity.
    + exists d. split; [exact Hd|exact Hneg].
  - change "213504d" with ("213504" +++ "d").
    rewrite (proj1 (parseDuration_days mock_ParseDuration "213504" (213504 * 3600 * GoTime.Second)
                      ltac:(discriminate) ltac:(vm_compute; reflexivity))).
    vm_compute. reflexivity.
Defined.

End DownloadExamples.

Module ScanExtra.
Import Scanner TreeWalk WalkProofs.

Section SE.

Variable MatchString : string -> string -> bool.
Variable FileNameFilter : list string.

Lemma walk_list_fails_iff (l : list (string * Tree)) : forall m : gmap string Artifact,
  (exists e, snd (walk_list MatchString FileNameFilter l m) = Some e)
  <-> exists q n, In (q, n) l /\ is_dir n = true /\ isRequiredFile MatchString FileNameFilter q = true.
Proof.
  induction l as [|[q n] rest IH]; intros m; simpl.
  - split; [intros [e He]; discriminate He|intros (q & n & [] & _)].
  - unfold visit. destruct (isRequiredFile MatchString FileNameFilter q) eqn:R;
      [destruct n as [name content|name cs]|].
    + simpl. rewrite IH. split.
      * intros (q' & n' & Hin & Hd & Hr). exists q', n'. auto.
      * intros (q' & n' & [Heq|Hin] & Hd & Hr); [inversion Heq; subst; discriminate Hd|].
        exists q', n'. auto.
    + simpl. split; [intros _; exists q, (TDir name cs); auto|intros _; eexists; reflexivity].
    + rewrite IH. split.
      * intros (q' & n' & Hin & Hd & Hr). exists q', n'. auto.
      * intros (q' & n' & [Heq|Hin] & Hd & Hr); [inversion Heq; subst; congruence|].
        exists q', n'. auto.
Qed.

(** The scan of processExtractedFiles fails exactly when some directory
    it walks (the root included) has a path matching a pattern: reading
    that directory fails and aborts the walk. *)
Theorem processExtractedFiles_fails_iff_dir_matches (p : string) (t : Tree)
    (m : gmap string Artifact) :
  (exists e, snd (processExtractedFiles MatchString FileNameFilter p t m) = Some e)
  <-> exists q n, In (q, n) (tree_entries p t) /\ is_dir n = true
                  /\ isRequiredFile MatchString FileNameFilter q = true.
Proof. unfold processExtractedFiles. rewrite walk_eq. apply walk_list_fails_iff. Qed.

(** When no walked directory matches a pattern, the scan succeeds and
    adds, in walking order, every regular file whose path matches one
    pattern, keyed by that path, with its base name and its content;
    entries already in the map stay unless a path is met again. *)
Theorem processExtractedFiles_indexes_matching_files (p : string) (t : Tree)
    (m : gmap string Artifact) :
  (forall q n, In (q, n) (tree_entries p t) -> is_dir n = true ->
     isRequiredFile MatchString FileNameFilter q = false) ->
  processExtractedFiles MatchString FileNameFilter p t m
  = (fold_left (fun acc (e : string * Tree) =>
                  match snd e with
                  | TFile name content =>
                      if isRequiredFile MatchString FileNameFilter (fst e)
                      then <[fst e := mkArtifact content name]> acc else acc
                  | TDir _ _ => acc
                  end) (tree_entries p t) m, None).
Proof.
  unfold processExtractedFiles. rewrite walk_eq. generalize (tree_entries p t) m.
  intros l. induction l as [|[q n] rest IH]; intros m0 H; simpl; [reflexivity|].
  unfold visit. destruct (isRequiredFile MatchString FileNameFilter q) eqn:R;
    [destruct n as [name content|name cs]|].
  - simpl. apply IH. intros q' n' Hin. apply H. right. exact Hin.
  - rewrite (H q (TDir name cs)) in R; [discriminate R|left; reflexivity|reflexivity].
  - destruct n; apply IH; intros q' n' Hin; apply H; right; exact Hin.
Qed.

End SE.

End ScanExtra.

Module GzProofs.
Import Scanner TreeWalk GzFiles.

Lemma gzWalk_entries : forall (t : Tree) (p : string) (acc : list GzFileInfo),
  gzWalk p t acc
  = acc ++ map (fun e => mkGzFileInfo (fst e) (filepath_Dir (fst e)))
              (List.filter (fun e => negb (is_dir (snd e)) && HasSuffix (tree_name (snd e)) ".gz")
                      (tree_entries p t)).
Proof.
  fix IH 1. intros [name content | name cs] p acc.
  - simpl. destruct (HasSuffix name ".gz"); simpl; [reflexivity|now rewrite app_nil_r].
  - simpl. revert acc. induction cs as [|c rest IHc]; intros acc0; simpl;
      [now rewrite app_nil_r|].
    rewrite IHc, IH, List.filter_app, map_app, app_assoc. reflexivity.
Qed.

(** GetGzFilesFromDir lists, in walking order, exactly the regular files
    whose base name ends in ".gz" (a directory named so is skipped), each
    with [filepath.Dir] of its path. *)
Theorem GetGzFilesFromDir_lists_gz_files (dir : string) (root : Tree) :
  GetGzFilesFromDir dir root
  = map (fun e => mkGzFileInfo (fst e) (filepath_Dir (fst e)))
        (List.filter (fun e => negb (is_dir (snd e)) && HasSuffix (tree_name (snd e)) ".gz")
                (tree_entries dir root)).
Proof. unfold GetGzFilesFromDir. rewrite gzWalk_entries. reflexivity. Qed.

End GzProofs.

Module BlobExtra.
Import Paths FS Blobs Puller ExtractProofs StrLemmas.

(** Extracting a concatenation of tar entries extracts the first part
    and, only when that succeeded, the second part on the resulting
    tree: the first failing entry ends the extraction, and no later
    entry touches the file system. *)
Theorem extractEntries_app (a b : list TarItem) (dest : path) (fs : FS) :
  extractEntries (a ++ b) dest fs
  = match extractEntries a dest fs with
    | (fs', Some e) => (fs', Some e)
    | (fs', None) => extractEntries b dest fs'
    end.
Proof.
  revert fs. induction a as [|[h data data_err|e] rest IH]; intros fs; simpl; [reflexivity| |reflexivity].
  destruct (handleTarEntry h data data_err (join_segs dest (hName h)) fs) as [fs' [e|]];
    [reflexivity|apply IH].
Qed.

Lemma str_app_empty_r (s : string) : s +++ "" = s.
Proof.
  induction s as [|c s IH]; [reflexivity|].
  change (String c (s +++ "") = String c s). f_equal. exact IH.
Qed.

Lemma str_app_assoc (a b c : string) : a +++ (b +++ c) = (a +++ b) +++ c.
Proof.
  induction a as [|x a IH]; [reflexivity|].
  change (String x (a +++ (b +++ c)) = String x ((a +++ b) +++ c)). f_equal. exact IH.
Qed.

Lemma split_slash_aux_noslash (s : string) : forall cur : string,
  ~ In "/"%char (list_ascii_of_string s) -> split_slash_aux s cur = [cur +++ s].
Proof.
  induction s as [|c s IH]; intros cur H; simpl.
  - rewrite str_app_empty_r. reflexivity.
  - destruct (Ascii.eqb c "/") eqn:E.
    + apply Ascii.eqb_eq in E. subst. exfalso. apply H. left. reflexivity.
    + rewrite IH by (intros Hin; apply H; right; exact Hin).
      rewrite <- str_app_assoc. reflexivity.
Qed.

Lemma clean_aux_normal (rooted : bool) (d : list string) : forall (acc rest : list string),
  Forall (fun s : string => s <> "" /\ s <> "." /\ s <> "..") d -> clean_aux rooted acc (d ++ rest) = clean_aux rooted (rev d ++ acc) rest.
Proof.
  induction d as [|x d IH]; intros acc rest H; [reflexivity|].
  inversion H as [|? ? [H1 [H2 H3]] Hd]; subst. simpl.
  destruct (String.eqb x "") eqn:E1; [apply String.eqb_eq in E1; congruence|].
  destruct (String.eqb x ".") eqn:E2; [apply String.eqb_eq in E2; congruence|].
  destruct (String.eqb x "..") eqn:E3; [apply String.eqb_eq in E3; congruence|].
  simpl. rewrite IH by exact Hd. rewrite <- app_assoc. reflexivity.
Qed.

Lemma join_segs_parent (dest : path) (name : string) :
  dest <> [] -> Forall (fun s : string => s <> "" /\ s <> "." /\ s <> "..") dest -> name <> "" /\ name <> "." /\ name <> ".." ->
  ~ In "/"%char (list_ascii_of_string name) ->
  join_segs dest ("../" +++ name) = removelast dest ++ [name].
Proof.
  intros Hne Hd [N1 [N2 N3]] Hs. unfold join_segs, split_slash. simpl.
  rewrite split_slash_aux_noslash by exact Hs.
  change ("" +++ "" +++ name) with name. simpl.
  rewrite clean_aux_normal by exact Hd. rewrite app_nil_r.
  destruct (exists_last Hne) as [init [x Hx]]. subst dest.
  rewrite rev_app_distr. simpl.
  apply Forall_app in Hd as [_ Hx]. inversion Hx as [|? ? [X1 [X2 X3]] _]; subst.
  destruct (String.eqb x "..") eqn:E; [apply String.eqb_eq in E; congruence|].
  destruct (String.eqb name "") eqn:F1; [apply String.eqb_eq in F1; congruence|].
  destruct (String.eqb name ".") eqn:F2; [apply String.eqb_eq in F2; congruence|].
  destruct (String.eqb name "..") eqn:F3; [apply String.eqb_eq in F3; congruence|].
  simpl. rewrite removelast_last, rev_involutive. reflexivity.
Qed.

(** A regular tar entry named "../<name>" is written beside the output
    directory, not inside it: [filepath.Join] resolves the "..", and
    nothing in handleTarEntry checks that the result stays under [dest]. *)
Theorem extractEntries_writes_outside_dest (dest : path) (name : string)
    (data : list Byte.byte) (fs : FS) :
  dest <> [] -> Forall (fun s : string => s <> "" /\ s <> "." /\ s <> "..") dest -> name <> "" /\ name <> "." /\ name <> ".." ->
  ~ In "/"%char (list_ascii_of_string name) ->
  lookup_node fs (removelast dest) = Some Dir ->
  fs !! (removelast dest ++ [name]) = None ->
  extractEntries [TEntry (mkHeader ("../" +++ name) TypeReg) data None] dest fs
  = (<[removelast dest ++ [name] := File data]> fs, None)
  /\ ~ (exists r, r <> [] /\ removelast dest ++ [name] = dest ++ r).
Proof.
  intros Hne Hd Hn Hs Hpar Habs. split.
  - simpl. rewrite join_segs_parent by assumption.
    unfold handleTarEntry, Stat. simpl Typeflag. cbv iota.
    assert (Hl : lookup_node fs (removelast dest ++ [name]) = None).
    { destruct (removelast dest); exact Habs. }
    rewrite Hl. unfold createFileFromTar, CreateWrite.
    rewrite removelast_last, Hpar, Hl. reflexivity.
  - intros [r [Hr E]]. apply (f_equal (@length string)) in E.
    rewrite !List.length_app in E. simpl in E.
    destruct (exists_last Hne) as [init [x Hx]]. subst dest.
    rewrite removelast_last, List.length_app in E. simpl in E.
    destruct r; [congruence|simpl in E; lia].
Qed.

Section PB.

Variable gunzip_untar : list Byte.byte -> TarStream.
Variable extract_time : list Byte.byte -> Z.

Lemma processBlob_subseteq (blobPath : string) (content : list Byte.byte) (outputDir : path)
    (fs fs' : FS) (r : option GoError) (d : Z) :
  processBlob gunzip_untar extract_time blobPath content outputDir fs = (fs', r, d) -> fs ⊆ fs'.
Proof.
  unfold processBlob, extractBlob. intros H.
  destruct (Nat.eqb (length content) 0); [inversion H; subst; reflexivity|].
  destruct (isTarGzBlob (Clean blobPath) content); [|inversion H; subst; reflexivity].
  destruct (extractTarGz (gunzip_untar content) outputDir fs) as [fs1 r1] eqn:E.
  apply extractTarGz_subseteq in E.
  destruct (extractTimeout <? extract_time content); inversion H; subst; exact E.
Qed.

Lemma handleBlobs_subseteq (c : Controller) (outputDir : path) (entries : list DirEntry) :
  forall (fs fs' : FS) (errs : list GoError) (durs : list Z),
  handleBlobs gunzip_untar extract_time c outputDir entries fs = (fs', errs, durs) -> fs ⊆ fs'.
Proof.
  induction entries as [|e rest IH]; simpl; intros fs fs' errs durs H.
  - inversion H; subst. reflexivity.
  - destruct (de_isDir e); [eapply IH; exact H|].
    destruct (processBlob gunzip_untar extract_time (Join [BlobDir c; de_name e])
                (de_content e) outputDir fs) as [[fs1 r] d] eqn:Eb.
    destruct (handleBlobs gunzip_untar extract_time c outputDir rest fs1) as [[fs2 errs'] ds] eqn:Er.
    inversion H; subst.
    transitivity fs1; [exact (processBlob_subseteq _ _ _ _ _ _ _ Eb)|exact (IH _ _ _ _ Er)].
Qed.

Lemma handleBlobs_empty_errors (c : Controller) (outputDir : path) (entries : list DirEntry) :
  forall (fs fs' : FS) (errs : list GoError) (durs : list Z),
  handleBlobs gunzip_untar extract_time c outputDir entries fs = (fs', errs, durs) ->
  (length (List.filter (fun e => negb (de_isDir e) && Nat.eqb (length (de_content e)) 0) entries)
   <= length errs)%nat.
Proof.
  induction entries as [|e rest IH]; simpl; intros fs fs' errs durs H.
  - inversion H; subst. simpl. lia.
  - destruct (de_isDir e); simpl; [eapply IH; exact H|].
    destruct (processBlob gunzip_untar extract_time (Join [BlobDir c; de_name e])
                (de_content e) outputDir fs) as [[fs1 r] d] eqn:Eb.
    destruct (handleBlobs gunzip_untar extract_time c outputDir rest fs1) as [[fs2 errs'] ds] eqn:Er.
    inversion H; subst. pose proof (IH _ _ _ _ Er) as Hle.
    destruct (Nat.eqb (length (de_content e)) 0) eqn:Z0.
    + unfold processBlob in Eb. rewrite Z0 in Eb. inversion Eb; subst. simpl. lia.
    + destruct r; simpl; lia.
Qed.

(** With more than 10 empty files in the blob directory, processBlobs
    never returns: each empty blob sends an error on a channel of
    capacity 10 that is read only after [wg.Wait()]. *)
Theorem processBlobs_hangs_on_empty_blobs (c : Controller) (outputDir : string) (w : World)
    (entries : list DirEntry) :
  w_blobdir w = Some entries ->
  (10 < length (List.filter (fun e => negb (de_isDir e) && Nat.eqb (length (de_content e)) 0)
                  entries))%nat ->
  processBlobs gunzip_untar extract_time c outputDir w = Hangs.
Proof.
  intros Hb Hn. unfold processBlobs. rewrite Hb.
  destruct (handleBlobs gunzip_untar extract_time c (segs outputDir) entries (w_fs w))
    as [[fs' errs] durs] eqn:E.
  pose proof (handleBlobs_empty_errors _ _ _ _ _ _ _ E) as Hle.
  replace (Nat.ltb 10 (length errs)) with true; [reflexivity|].
  symmetry. apply Nat.ltb_lt. lia.
Qed.

(** When processBlobs returns, it has only added to the file system
    (no file or directory removed or rewritten), the log has only grown,
    and its error, if any, is the unreadable blob directory. *)
Theorem processBlobs_only_adds (c : Controller) (outputDir : string) (w w' : World)
    (r : option GoError) :
  processBlobs gunzip_untar extract_time c outputDir w = Returns (w', r) ->
  w_fs w ⊆ w_fs w'
  /\ (exists logged, w_log w' = w_log w ++ logged)
  /\ (r <> None -> w_blobdir w = None /\ w' = w).
Proof.
  unfold processBlobs. destruct (w_blobdir w) as [entries|] eqn:Hb.
  - destruct (handleBlobs gunzip_untar extract_time c (segs outputDir) entries (w_fs w))
      as [[fs' errs] durs] eqn:E.
    destruct (Nat.ltb 10 (length errs)); intros H; [discriminate H|].
    inversion H; subst. simpl. split; [exact (handleBlobs_subseteq _ _ _ _ _ _ _ E)|].
    split; [exists errs; reflexivity|]. intros Hr. congruence.
  - intros H. inversion H; subst. split; [reflexivity|].
    split; [exists []; rewrite app_nil_r; reflexivity|]. intros _. split; reflexivity.
Qed.

(** The blob loop of processBlobs skips subdirectories of the blob
    directory: its outcome is that of the regular entries alone. *)
Theorem handleBlobs_skips_directories (c : Controller) (outputDir : path)
    (entries : list DirEntry) (fs : FS) :
  handleBlobs gunzip_untar extract_time c outputDir entries fs
  = handleBlobs gunzip_untar extract_time c outputDir
      (List.filter (fun e => negb (de_isDir e)) entries) fs.
Proof.
  revert fs. induction entries as [|e rest IH]; intros fs; simpl; [reflexivity|].
  destruct (de_isDir e) eqn:Ed; simpl; [apply IH|]. rewrite Ed.
  destruct (processBlob gunzip_untar extract_time (Join [BlobDir c; de_name e])
              (de_content e) outputDir fs) as [[fs1 r] d].
  rewrite IH. reflexivity.
Qed.

End PB.

End BlobExtra.

Module TagExtra.
Import TagFetcher.

Section S.

Variable url_Parse : string -> result URL.

(** sendTagsRequest returns the decoded page exactly when the URL
    parses, its scheme is http or https, the GET succeeds with status
    200 and the body decodes to that page. *)
Theorem sendTagsRequest_ok_iff (http_Get : string -> result Response) (urlStr : string)
    (page : TagResponse) :
  sendTagsRequest url_Parse http_Get urlStr = Ok page
  <-> exists (u : URL) (resp : Response),
        url_Parse urlStr = Ok u
        /\ (URL_Scheme u = "http" \/ URL_Scheme u = "https")
        /\ http_Get (URL_String u) = Ok resp
        /\ StatusCode resp = 200
        /\ Body resp = Ok page.
Proof.
  unfold sendTagsRequest. split.
  - destruct (url_Parse urlStr) as [u|e]; [|discriminate].
    destruct (negb (String.eqb (URL_Scheme u) "http") && negb (String.eqb (URL_Scheme u) "https"))
      eqn:Hs; [discriminate|].
    destruct (http_Get (URL_String u)) as [resp|e] eqn:Hg; [|discriminate].
    destruct (negb (Z.eqb (StatusCode resp) 200)) eqn:Hc; [discriminate|].
    destruct (Body resp) as [r|e] eqn:Hb; [|discriminate]. intros H. injection H as <-.
    exists u, resp. split; [reflexivity|]. split.
    + apply andb_false_iff in Hs. destruct Hs as [Hs|Hs]; apply negb_false_iff, String.eqb_eq in Hs;
        [left|right]; exact Hs.
    + apply negb_false_iff, Z.eqb_eq in Hc. repeat split; try assumption; reflexivity.
  - intros [u [resp [Hu [Hs [Hg [Hc Hb]]]]]]. rewrite Hu.
    replace (negb (String.eqb (URL_Scheme u) "http") && negb (String.eqb (URL_Scheme u) "https"))
      with false by (destruct Hs as [-> | ->]; reflexivity).
    rewrite Hg, Hc, Hb. reflexivity.
Qed.

(** A URL whose scheme is neither http nor https is refused before any
    request: the error is the same whatever [http.Get] would do. *)
Theorem sendTagsRequest_rejects_scheme (urlStr : string) (u : URL) :
  url_Parse urlStr = Ok u -> URL_Scheme u <> "http" -> URL_Scheme u <> "https" ->
  forall http_Get : string -> result Response,
  sendTagsRequest url_Parse http_Get urlStr
  = Err (ErrNew ("unsupported URL scheme " +++ URL_Scheme u +++ " in URL " +++ urlStr)).
Proof.
  intros Hu H1 H2 http_Get. unfold sendTagsRequest. rewrite Hu.
  apply String.eqb_neq in H1, H2. rewrite H1, H2. reflexivity.
Qed.

(** A response with a status other than 200 fails with the status text,
    and its body is not decoded. *)
Theorem sendTagsRequest_non_200 (http_Get : string -> result Response) (urlStr : string)
    (u : URL) (resp : Response) :
  url_Parse urlStr = Ok u -> (URL_Scheme u = "http" \/ URL_Scheme u = "https") ->
  http_Get (URL_String u) = Ok resp -> StatusCode resp <> 200 ->
  sendTagsRequest url_Parse http_Get urlStr = Err (ErrNew ("failed to fetch tags: " +++ Status resp)).
Proof.
  intros Hu Hs Hg Hc. unfold sendTagsRequest. rewrite Hu.
  replace (negb (String.eqb (URL_Scheme u) "http") && negb (String.eqb (URL_Scheme u) "https"))
    with false by (destruct Hs as [-> | ->]; reflexivity).
  rewrite Hg. apply Z.eqb_neq in Hc. rewrite Hc. reflexivity.
Qed.

End S.

End TagExtra.

Module ProcessorExtra.
Import TagFetcher Processor ProcessorSpec ProcessorProofs.

Section Sched.

Variable World : Type.
Variable ProcessTag : string -> string -> string -> World -> World * option GoError.
Variable FetchTags : string -> result (list TagInfo).
Variable layout_parse : string -> option GoTime.Time.

(** The errors ProcessRepositories returns depend neither on the order
    in which the repository goroutines run nor on the clock readings
    [time.Since] takes meanwhile: two runs over the same repositories,
    in any two orders and with any two clocks, return the same errors up
    to order (tag listing and date parsing decide them, not the window). *)
Theorem ProcessRepositories_errors_schedule_independent (sched1 sched2 : list string)
    (since : Z) (now1 now2 : string -> nat -> GoTime.Time) (st st1 st2 : PState World)
    (errs1 errs2 : list GoError) :
  Permutation sched1 sched2 ->
  ProcessRepositories World ProcessTag FetchTags layout_parse sched1 since now1 st = (st1, errs1) ->
  ProcessRepositories World ProcessTag FetchTags layout_parse sched2 since now2 st = (st2, errs2) ->
  Permutation errs1 errs2.
Proof.
  intros Hp H1 H2.
  destruct (ProcessRepositories_spec World ProcessTag FetchTags layout_parse _ _ _ _ _ _ H1)
    as [_ E1].
  destruct (ProcessRepositories_spec World ProcessTag FetchTags layout_parse _ _ _ _ _ _ H2)
    as [_ E2].
  rewrite E1, E2. now rewrite Hp.
Qed.

End Sched.

End ProcessorExtra.

Module GzExtra.
Import Paths FS Scanner GzFiles Uncompress.

Section G.

Variable gzip_NewReader : list Byte.byte -> result (string * list Byte.byte * option GoError).

(** Unlike tar extraction, ExtractGzFile replaces a file already at its
    output path: a non-empty .gz whose data decompresses without error
    leaves the decompressed bytes at [destDir]/<header name> (or the base
    name without ".gz" when the header has none), whatever was there. *)
Theorem ExtractGzFile_overwrites (gzFilePath destDir : string) (fs : FS)
    (content data old : list Byte.byte) (hname : string) (out : path) :
  lookup_node fs (segs gzFilePath) = Some (File content) -> content <> [] ->
  gzip_NewReader content = Ok (hname, data, None) ->
  out = segs (Join [destDir; if String.eqb hname "" then Utils.TrimSuffix (Base gzFilePath) ".gz"
                             else hname]) ->
  lookup_node fs (removelast out) = Some Dir -> lookup_node fs out = Some (File old) ->
  ExtractGzFile gzip_NewReader gzFilePath destDir fs = (<[out := File data]> fs, None).
Proof.
  intros Hf Hc Hg -> Hpar Hout. unfold ExtractGzFile. rewrite Hf.
  destruct content as [|b rest]; [congruence|]. simpl Nat.eqb. cbv iota. rewrite Hg.
  unfold CreateWrite. rewrite Hpar, Hout. reflexivity.
Qed.

Lemma extract_keeps_step (file : GzFileInfo) (fs : FS) :
  (lookup_node fs (segs (FilePath file)) = None
   \/ exists c, lookup_node fs (segs (FilePath file)) = Some (File c)
                /\ (c = [] \/ exists e, gzip_NewReader c = Err e)) ->
  segs (FilePath file) <> []
  /\ fst (ExtractGzFile gzip_NewReader (FilePath file) (DirPath file) fs) = fs
  /\ fst (Remove (segs (FilePath file)) fs) = delete (segs (FilePath file)) fs.
Proof.
  intros Hk. set (p := segs (FilePath file)) in *.
  assert (Hne : p <> []).
  { intros E. destruct Hk as [Hk|[c [Hk _]]]; rewrite E in Hk; discriminate. }
  split; [exact Hne|]. unfold ExtractGzFile, Remove. fold p.
  destruct Hk as [Hk|[c [Hk [->|[e He]]]]]; rewrite Hk.
  - split; [reflexivity|]. simpl. destruct p as [|x q]; [congruence|].
    symmetry. apply delete_id. exact Hk.
  - split; reflexivity.
  - split; [|reflexivity]. destruct (Nat.eqb (length c) 0); [reflexivity|]. rewrite He. reflexivity.
Qed.

Lemma lookup_node_delete (fs : FS) (p q : path) :
  p <> [] -> lookup_node (delete p fs) q = if bool_decide (q = p) then None else lookup_node fs q.
Proof.
  intros Hp. unfold lookup_node. case_bool_decide as E.
  - subst q. destruct p; [congruence|]. apply lookup_delete_eq.
  - destruct q; [reflexivity|]. apply lookup_delete_ne. congruence.
Qed.

(** The uncompress loop deletes a listed .gz file even when it could not
    be decompressed: when no listed file yields output (each is empty or
    its gzip header is unreadable), every listed file is gone afterwards
    and every other path of the file system is left as it was. *)
Theorem uncompressLoop_removes_undecodable (files : list GzFileInfo) : forall (fs : FS),
  (forall f, In f files -> (lookup_node fs (segs (FilePath f)) = None
   \/ exists c, lookup_node fs (segs (FilePath f)) = Some (File c)
                /\ (c = [] \/ exists e, gzip_NewReader c = Err e))) ->
  (forall f, In f files -> lookup_node (fst (uncompressLoop gzip_NewReader files fs))
                                     (segs (FilePath f)) = None)
  /\ (forall q, (forall f, In f files -> segs (FilePath f) <> q) ->
       fst (uncompressLoop gzip_NewReader files fs) !! q = fs !! q).
Proof.
  induction files as [|file rest IH]; intros fs Hk.
  - split; [intros f []|reflexivity].
  - destruct (extract_keeps_step file fs (Hk file (or_introl eq_refl))) as [Hne [E1 E2]].
    set (p := segs (FilePath file)) in *.
    assert (Hstep : fst (uncompressLoop gzip_NewReader (file :: rest) fs)
                    = fst (uncompressLoop gzip_NewReader rest (delete p fs))).
    { simpl. destruct (ExtractGzFile gzip_NewReader (FilePath file) (DirPath file) fs) as [fs1 r].
      simpl in E1. subst fs1. fold p.
      destruct (Remove p fs) as [fs2 r2]. simpl in E2. subst fs2.
      destruct (uncompressLoop gzip_NewReader rest (delete p fs)). reflexivity. }
    rewrite Hstep.
    assert (Hk' : forall f, In f rest -> (lookup_node (delete p fs) (segs (FilePath f)) = None
   \/ exists c, lookup_node (delete p fs) (segs (FilePath f)) = Some (File c)
                /\ (c = [] \/ exists e, gzip_NewReader c = Err e))).
    { intros f Hin. rewrite lookup_node_delete by exact Hne.
      case_bool_decide; [left; reflexivity|]. apply Hk. right. exact Hin. }
    destruct (IH (delete p fs) Hk') as [IH1 IH2]. split.
    + intros f [<-|Hin]; [|exact (IH1 f Hin)].
      destruct (in_dec (fun a b : path => decide (a = b)) p (map (fun f => segs (FilePath f)) rest))
        as [Hin|Hno].
      * apply in_map_iff in Hin. destruct Hin as [f' [E Hin]].
        pose proof (IH1 f' Hin) as H. rewrite E in H. exact H.
      * unfold lookup_node. fold p. destruct p as [|x q]; [congruence|].
        rewrite IH2; [apply lookup_delete_eq|]. intros f' Hin E. apply Hno.
        apply in_map_iff. exists f'. split; assumption.
    + intros q Hq. rewrite IH2 by (intros f Hin; apply Hq; right; exact Hin).
      apply lookup_delete_ne. intros E. apply (Hq file (or_introl eq_refl)). exact E.
Qed.

End G.

End GzExtra.

Module UtilsExamples.
Import Utils UtilsProofs.

Lemma ParseRepoAndTag_errors_witness :
  ParseRepoAndTag "quay.io/org/repo" = Err (ErrNew "tag is missing in the repo flag")
  /\ exists rest, "quay.io/org/repo" = "quay.io/" +++ rest
                  /\ ~ In ":"%char (list_ascii_of_string rest).
Proof.
  assert (E : ParseRepoAndTag "quay.io/org/repo" = Err (ErrNew "tag is missing in the repo flag"))
    by (vm_compute; reflexivity).
  split; [exact E|].
  destruct (ParseRepoAndTag_errors _ _ E) as [[H _]|[rest [H1 [H2 _]]]].
  - vm_compute in H. discriminate H.
  - exists rest. split; assumption.
Defined.

End UtilsExamples.

Module ScanExamples.
Import Scanner TreeWalk ScanExtra Fixtures.

Lemma processExtractedFiles_indexes_matching_files_witness :
  exists m, processExtractedFiles Regexp.MatchString ["e2e-report\.xml$"] "/tmp/artifacts"
              report_tree ∅ = (m, None).
Proof.
  eexists. apply processExtractedFiles_indexes_matching_files.
  intros q n Hin Hd.
  assert (B : forallb (fun e : string * Tree =>
                         negb (is_dir (snd e))
                         || negb (isRequiredFile Regexp.MatchString ["e2e-report\.xml$"] (fst e)))
                (tree_entries "/tmp/artifacts" report_tree) = true)
    by (vm_compute; reflexivity).
  rewrite forallb_forall in B. specialize (B _ Hin). simpl in B. rewrite Hd in B. simpl in B.
  apply negb_true_iff. exact B.
Defined.

End ScanExamples.

Module BlobExamples.
Import Paths FS Blobs Puller BlobExtra Fixtures.

Lemma extractEntries_writes_outside_dest_witness :
  extractEntries [TEntry (mkHeader ("../" +++ "evil") TypeReg) [Byte.x41] None]
    ["tmp"; "out"] (<[["tmp"] := Dir]> ∅)
  = (<[["tmp"; "evil"] := File [Byte.x41]]> (<[["tmp"] := Dir]> ∅), None).
Proof.
  destruct (extractEntries_writes_outside_dest ["tmp"; "out"] "evil" [Byte.x41]
              (<[["tmp"] := Dir]> ∅)) as [E _].
  - discriminate.
  - repeat constructor; discriminate.
  - repeat split; discriminate.
  - simpl. intuition discriminate.
  - reflexivity.
  - reflexivity.
  - exact E.
Defined.

Lemma processBlobs_hangs_on_empty_blobs_witness :
  processBlobs untar_empty time_59s ctl "/out/org/repo"
    (mkWorld 0 ∅ (Some (repeat (mkDirEntry "e3b0" false []) 11)) []) = Hangs.
Proof.
  apply (processBlobs_hangs_on_empty_blobs untar_empty time_59s ctl "/out/org/repo"
           (mkWorld 0 ∅ (Some (repeat (mkDirEntry "e3b0" false []) 11)) [])
           (repeat (mkDirEntry "e3b0" false []) 11)).
  - reflexivity.
  - apply Nat.ltb_lt. vm_compute. reflexivity.
Defined.

Lemma processBlobs_only_adds_witness :
  exists w' r, processBlobs untar_empty time_59s ctl "/out/org/repo" w0 = Returns (w', r)
               /\ w_fs w0 ⊆ w_fs w'.
Proof.
  destruct (processBlobs untar_empty time_59s ctl "/out/org/repo" w0) as [[w' r]|] eqn:E;
    [|vm_compute in E; discriminate E].
  exists w', r. split; [reflexivity|].
  exact (proj1 (processBlobs_only_adds untar_empty time_59s ctl "/out/org/repo" w0 w' r E)).
Defined.

End BlobExamples.

Module TagExamples.
Import TagFetcher TagExtra.

Lemma sendTagsRequest_rejects_scheme_witness :
  sendTagsRequest (fun s => Ok (mkURL "ftp" s)) (fun _ => Err (ErrLib "dial tcp: unreachable"))
    "ftp://quay.io/api/v1/repository/org/repo/tag/"
  = Err (ErrNew ("unsupported URL scheme " +++ "ftp" +++ " in URL "
                 +++ "ftp://quay.io/api/v1/repository/org/repo/tag/")).
Proof.
  apply (sendTagsRequest_rejects_scheme (fun s => Ok (mkURL "ftp" s))
           "ftp://quay.io/api/v1/repository/org/repo/tag/"
           (mkURL "ftp" "ftp://quay.io/api/v1/repository/org/repo/tag/")).
  - reflexivity.
  - discriminate.
  - discriminate.
Defined.

Lemma sendTagsRequest_non_200_witness :
  sendTagsRequest (fun s => Ok (mkURL "https" s))
    (fun _ => Ok (mkResponse 404 "404 Not Found" (Err (ErrLib "invalid character"))))
    (buildTagsURL "org/repo" 1)
  = Err (ErrNew ("failed to fetch tags: " +++ "404 Not Found")).
Proof.
  apply (sendTagsRequest_non_200 (fun s => Ok (mkURL "https" s))
           (fun _ => Ok (mkResponse 404 "404 Not Found" (Err (ErrLib "invalid character"))))
           (buildTagsURL "org/repo" 1) (mkURL "https" (buildTagsURL "org/repo" 1))
           (mkResponse 404 "404 Not Found" (Err (ErrLib "invalid character")))).
  - reflexivity.
  - right. reflexivity.
  - reflexivity.
  - discriminate.
Defined.

End TagExamples.

Module ProcessorExtraExamples.
Import TagFetcher Processor ProcessorExtra Fixtures.

Lemma ProcessRepositories_errors_schedule_independent_witness :
  Permutation
    (snd (ProcessRepositories unit tag_ok fetch_abc parse_one ["org/a"; "org/b"] day
            (fun _ => now_1h) st0))
    (snd (ProcessRepositories unit tag_ok fetch_abc parse_one ["org/b"; "org/a"] day
            (fun _ _ => t2006) st0)).
Proof.
  destruct (ProcessRepositories unit tag_ok fetch_abc parse_one ["org/a"; "org/b"] day
              (fun _ => now_1h) st0) as [s1 e1] eqn:E1.
  destruct (ProcessRepositories unit tag_ok fetch_abc parse_one ["org/b"; "org/a"] day
              (fun _ _ => t2006) st0) as [s2 e2] eqn:E2.
  exact (ProcessRepositories_errors_schedule_independent unit tag_ok fetch_abc parse_one
           ["org/a"; "org/b"] ["org/b"; "org/a"] day (fun _ => now_1h) (fun _ _ => t2006)
           st0 s1 s2 e1 e2 (perm_swap "org/b" "org/a" []) E1 E2).
Defined.

End ProcessorExtraExamples.

Module GzExamples.
Import Paths FS GzFiles Uncompress GzExtra.

Lemma ExtractGzFile_overwrites_witness :
  ExtractGzFile (fun _ => Ok ("", [Byte.x41], None)) "/d/x.json.gz" "/d"
    (<[["d"; "x.json"] := File [Byte.x00]]>
       (<[["d"; "x.json.gz"] := File [Byte.x1f]]> (<[["d"] := Dir]> ∅)))
  = (<[["d"; "x.json"] := File [Byte.x41]]>
       (<[["d"; "x.json"] := File [Byte.x00]]>
          (<[["d"; "x.json.gz"] := File [Byte.x1f]]> (<[["d"] := Dir]> ∅))), None).
Proof.
  apply (ExtractGzFile_overwrites (fun _ => Ok ("", [Byte.x41], None)) "/d/x.json.gz" "/d"
           (<[["d"; "x.json"] := File [Byte.x00]]>
              (<[["d"; "x.json.gz"] := File [Byte.x1f]]> (<[["d"] := Dir]> ∅)))
           [Byte.x1f] [Byte.x41] [Byte.x00] "" ["d"; "x.json"]).
  - vm_compute. reflexivity.
  - discriminate.
  - reflexivity.
  - vm_compute. reflexivity.
  - vm_compute. reflexivity.
  - vm_compute. reflexivity.
Defined.

Lemma uncompressLoop_removes_undecodable_witness :
  lookup_node (fst (uncompressLoop (fun _ => Err (ErrLib "gzip: invalid header"))
                      [mkGzFileInfo "/d/x.gz" "/d"]
                      (<[["d"; "x.gz"] := File [Byte.x00]]> (<[["d"] := Dir]> ∅))))
    ["d"; "x.gz"] = None.
Proof.
  destruct (uncompressLoop_removes_undecodable (fun _ => Err (ErrLib "gzip: invalid header"))
              [mkGzFileInfo "/d/x.gz" "/d"]
              (<[["d"; "x.gz"] := File [Byte.x00]]> (<[["d"] := Dir]> ∅))) as [H _].
  - intros f [<-|[]]. right. exists [Byte.x00]. split; [vm_compute; reflexivity|].
    right. eexists. reflexivity.
  - exact (H _ (or_introl eq_refl)).
Defined.

End GzExamples.
